(** * API_Key_Generator.c: token generator and properties-file editor

    A shallow embedding of [src/API_Key_Generator/API_Key_Generator.c].
    C strings are lists of characters without their terminating NUL, the
    [lines] array is a list updated by index, and the operating system
    (entropy device, properties file, standard streams) is explicit state.

    Not modelled: failure of [malloc], [realloc] and [strdup]; read errors
    of [fgets] after a successful [fopen]. The index [key_line_index] is
    an unbounded integer in [read_loop]; [read_loop_int] keeps it in an
    [int] as the source does, and the two agree on every file of fewer
    than 2^31 characters ([read_file_int_agrees]). *)

From Stdlib Require Import ZArith Ascii String List Lia.
From stdpp Require Import base tactics option list strings.

Local Open Scope Z_scope.
Local Open Scope list_scope.

(** ** Characters and C strings *)

Definition NUL : ascii := Ascii.ascii_of_nat 0.
Definition LF : ascii := Ascii.ascii_of_nat 10.
Definition CR : ascii := Ascii.ascii_of_nat 13.
Definition COMMA : ascii := Ascii.ascii_of_nat 44.

(** A string literal of the source, as the characters before its terminator. *)
Definition lit (s : string) : list ascii := list_ascii_of_string s.

(** The content of a character buffer read as a C string: everything before
    the first NUL (what [strlen], [strdup] and ["%s"] see). *)
Fixpoint c_str (buf : list ascii) : list ascii :=
  match buf with
  | [] => []
  | c :: buf' => if decide (c = NUL) then [] else c :: c_str buf'
  end.

(** [strncmp(s1, s2, n) == 0] on C strings given by their content. *)
Fixpoint strncmp_eq (s1 s2 : list ascii) (n : nat) {struct n} : bool :=
  match n with
  | O => true
  | S n' =>
      match s1, s2 with
      | [], [] => true
      | c1 :: t1, c2 :: t2 => if decide (c1 = c2) then strncmp_eq t1 t2 n' else false
      | _, _ => false
      end
  end.

(** [snprintf(buf, size, ...)]: the formatted text cut to [size - 1]
    characters. *)
Definition snprintf (size : nat) (text : list ascii) : list ascii :=
  take (size - 1) text.

(** ** Constants of the source *)

Definition KEY_LENGTH : nat := 32.
Definition MAX_LINE_LENGTH : nat := 1024.

Definition charset : list ascii :=
  lit "ABCDEFGHIJKLMNOPQRSTUVWXYZ" ++
  lit "abcdefghijklmnopqrstuvwxyz" ++
  lit "0123456789".

(** [sizeof(charset)] counts the terminator. *)
Definition sizeof_charset : nat := S (length charset).

Definition KEYS_PREFIX : list ascii := lit "api.security.keys=".

(** ** The operating system seen by the program *)

Record os := {
  (** result of [open("/dev/urandom", O_RDONLY)] *)
  urandom_fd : Z;
  (** bytes transferred by [read]; [None] when [read] fails *)
  urandom_data : option (list ascii);
  (** indeterminate initial content of the local array [buffer] *)
  stack_junk : nat -> ascii;
  (** whether [fopen(PROPERTIES_FILE, "r")] is permitted *)
  fs_readable : bool;
  (** whether [fopen(PROPERTIES_FILE, "w")] is permitted *)
  fs_writable : bool;
  (** number of bytes the device still accepts ([None]: no limit); what is
      written beyond it is lost *)
  fs_room : option nat
}.

Record world := {
  (** content of the properties file, [None] when it does not exist *)
  disk : option (list ascii);
  (** texts written to standard output, one per call *)
  out : list (list ascii);
  (** texts written to standard error, one per call *)
  err : list (list ascii)
}.

Definition printf (text : list ascii) (w : world) : world :=
  {| disk := disk w; out := out w ++ [text]; err := err w |}.

Definition eprintf (text : list ascii) (w : world) : world :=
  {| disk := disk w; out := out w; err := err w ++ [text] |}.

(** [perror(msg)]: the message reaches standard error (followed by the
    system's description of [errno], which is not modelled). *)
Definition perror (msg : list ascii) (w : world) : world := eprintf msg w.

Definition set_disk (content : list ascii) (w : world) : world :=
  {| disk := Some content; out := out w; err := err w |}.

(** A call either returns or ends the process through [exit]. *)
Inductive outcome (A : Type) : Type :=
  | Ret (a : A) (w : world)
  | Exit (status : Z) (w : world).
Arguments Ret {A} a w.
Arguments Exit {A} status w.

(** ** generate_api_key *)

(** [read(fd, buffer, length)] into an array holding [junk]: the bytes
    transferred overwrite the front of the array, the rest stays as it was. *)
Definition read_into (data : option (list ascii)) (junk : list ascii) : list ascii :=
  match data with
  | None => junk
  | Some bytes =>
      let got := take (length junk) bytes in
      got ++ drop (length got) junk
  end.

(** [charset[b % (sizeof(charset) - 1)]] *)
Definition key_char (b : ascii) : ascii :=
  nth (nat_of_ascii b mod (sizeof_charset - 1)) charset NUL.

Definition generate_api_key (e : os) (len : nat) (w : world) : outcome (list ascii) :=
  if urandom_fd e <? 0 then
    Exit 1 (perror (lit "Error while opening /dev/urandom") w)
  else
    let buffer := read_into (urandom_data e) (map (stack_junk e) (seq 0 len)) in
    Ret (map key_char buffer) w.

(** ** add_key_to_properties *)

(** [fgets(line, size, file)] on a non-empty stream: at most [room]
    characters, stopping after a line feed. The result is the buffer
    content and the rest of the stream. *)
Fixpoint fgets_chars (room : nat) (stream : list ascii) {struct stream} :
    list ascii * list ascii :=
  match room, stream with
  | S room', c :: stream' =>
      if decide (c = LF) then ([c], stream')
      else let '(buf, rest) := fgets_chars room' stream' in (c :: buf, rest)
  | _, _ => ([], stream)
  end.

(** [fgets] returns NULL ([None]) at end of file and otherwise stores at
    most [size - 1] characters. *)
Definition fgets (size : nat) (stream : list ascii) : option (list ascii * list ascii) :=
  match stream with
  | [] => None
  | _ :: _ => Some (fgets_chars (size - 1) stream)
  end.

(** The statement
    [len = strlen(line); if (len > 0 && line[len - 1] == '\n') line[len - 1] = '\0';]
    followed by reading the buffer as a string. *)
Definition strip_newline (buf : list ascii) : list ascii :=
  let len := length (c_str buf) in
  if bool_decide (0 < len)%nat && bool_decide (buf !! (len - 1)%nat = Some LF)
  then c_str (<[(len - 1)%nat := NUL]> buf)
  else c_str buf.

(** [strncmp(line, "api.security.keys=", 18) == 0] *)
Definition is_keys_line (line : list ascii) : bool :=
  strncmp_eq line KEYS_PREFIX 18.

(** The reading loop. [lines] holds the lines stored so far, so
    [num_lines] is its length (the capacity of the array is bookkeeping
    without effect on its content); [key_line_index] starts at -1 and is
    assigned at every line with the prefix. Every iteration consumes at
    least one character of the stream, and [fuel] bounds the number of
    iterations. *)
Fixpoint read_loop (fuel : nat) (stream : list ascii)
    (lines : list (list ascii)) (key_line_index : Z) : list (list ascii) * Z :=
  match fuel with
  | O => (lines, key_line_index)
  | S fuel' =>
      match fgets MAX_LINE_LENGTH stream with
      | None => (lines, key_line_index)
      | Some (buf, stream') =>
          let line := strip_newline buf in
          let key_line_index :=
            if is_keys_line line then Z.of_nat (length lines) else key_line_index in
          read_loop fuel' stream' (lines ++ [line]) key_line_index
      end
  end.

(** The whole file is read: its length is fuel enough (see
    [read_loop_fuel]). *)
Definition read_file (content : list ascii) : list (list ascii) * Z :=
  read_loop (length content) content [] (-1).

(** The in-memory edit between the two [fopen] calls: the new array and
    whether the warning is printed. *)
Definition update_lines (lines : list (list ascii)) (key_line_index : Z)
    (api_key : list ascii) : list (list ascii) * bool :=
  if key_line_index =? -1 then
    let new_line := snprintf MAX_LINE_LENGTH (lit "api.security.keys=" ++ api_key) in
    (lines ++ [new_line], true)
  else
    let old_line := default [] (lines !! Z.to_nat key_line_index) in
    let new_line := snprintf MAX_LINE_LENGTH (old_line ++ lit "," ++ api_key) in
    (<[Z.to_nat key_line_index := new_line]> lines, false).

(** [fprintf(file, "%s\n", lines[i])] for every [i]. *)
Definition write_lines (lines : list (list ascii)) : list ascii :=
  concat (map (fun line => line ++ [LF]) lines).

Definition WARNING : list ascii :=
  lit "Warning: api.security.keys line not found, adding new line" ++ [LF].

Definition fopen_r (e : os) (w : world) : option (list ascii) :=
  if fs_readable e then disk w else None.

(** [fopen(PROPERTIES_FILE, "w")] truncates the file; of the data written
    afterwards the device keeps what it has room for. The source checks
    neither [fprintf] nor [fclose]. *)
Definition rewrite_file (e : os) (data : list ascii) (w : world) : world :=
  set_disk (match fs_room e with None => data | Some n => take n data end) w.

Definition add_key_to_properties (e : os) (api_key : list ascii) (w : world) : Z * world :=
  match fopen_r e w with
  | None => (1, perror (lit "Error opening application.properties for reading") w)
  | Some content =>
      let '(lines, key_line_index) := read_file content in
      let '(lines, warn) := update_lines lines key_line_index api_key in
      let w := if warn then eprintf WARNING w else w in
      if fs_writable e then
        (0, rewrite_file e (write_lines lines) w)
      else
        (1, perror (lit "Error opening application.properties for writing") w)
  end.

(** ** main *)

Definition main (e : os) (w : world) : Z * world :=
  match generate_api_key e KEY_LENGTH w with
  | Exit status w => (status, w)
  | Ret api_key w =>
      let w := printf (lit "Generated API Key: " ++ api_key ++ [LF]) w in
      let '(r, w) := add_key_to_properties e api_key w in
      if r =? 0 then
        (0, printf (lit "API Key successfully added to application.properties" ++ [LF]) w)
      else
        (1, eprintf (lit "Failed to add API Key to application.properties" ++ [LF]) w)
  end.

(** ** The reading loop without its accumulators *)

(** The lines the loop stores, in order. *)
Fixpoint read_lines (fuel : nat) (stream : list ascii) : list (list ascii) :=
  match fuel with
  | O => []
  | S fuel' =>
      match fgets MAX_LINE_LENGTH stream with
      | None => []
      | Some (buf, stream') => strip_newline buf :: read_lines fuel' stream'
      end
  end.

(** The index the loop remembers after storing [ls] from position [n] on,
    when it held [k] before. *)
Fixpoint scan_keys (ls : list (list ascii)) (n : nat) (k : Z) : Z :=
  match ls with
  | [] => k
  | l :: ls' => scan_keys ls' (S n) (if is_keys_line l then Z.of_nat n else k)
  end.

(** ** Vocabulary of the specification *)

(** The lines of a text: pieces separated by line feeds; a last piece
    without line feed is a line when it is not empty. *)
Fixpoint split_lines (s : list ascii) : list (list ascii) :=
  match s with
  | [] => []
  | c :: s' =>
      if decide (c = LF) then [] :: split_lines s'
      else match split_lines s' with
           | [] => [[c]]
           | l :: ls => (c :: l) :: ls
           end
  end.

(** A line has the prefix [api.security.keys=]. *)
Definition has_keys_prefix (line : list ascii) : Prop := KEYS_PREFIX `prefix_of` line.

(** [l] is the last line of [ls] with the prefix, at index [i]. *)
Definition last_keys_line (ls : list (list ascii)) (i : nat) (l : list ascii) : Prop :=
  ls !! i = Some l /\ has_keys_prefix l /\
  forall j l', ls !! j = Some l' -> has_keys_prefix l' -> (j <= i)%nat.

(** [l] is the first line of [ls] with the prefix, at index [i]. *)
Definition first_keys_line (ls : list (list ascii)) (i : nat) (l : list ascii) : Prop :=
  ls !! i = Some l /\ has_keys_prefix l /\
  forall j l', ls !! j = Some l' -> has_keys_prefix l' -> (i <= j)%nat.

Definition no_keys_line (ls : list (list ascii)) : Prop :=
  Forall (fun l => ~ has_keys_prefix l) ls.

(** A line that [fgets] stores whole, line feed included. *)
Definition fits_buffer (l : list ascii) : Prop := (length l + 2 <= MAX_LINE_LENGTH)%nat.

(** Every line of the file fits the line buffer. *)
Definition lines_fit (f : list ascii) : Prop := Forall fits_buffer (split_lines f).

(** A text file within the editor's limits: every line fits the line
    buffer and no line holds a NUL character. *)
Definition text_file (f : list ascii) : Prop :=
  Forall (fun l => fits_buffer l /\ NUL ∉ l) (split_lines f).

(** Both [fopen] calls succeed, the first on content [f], and every write
    reaches the device. *)
Definition file_io_ok (e : os) (w : world) (f : list ascii) : Prop :=
  fopen_r e w = Some f /\ fs_writable e = true /\ fs_room e = None.

(** A token: [KEY_LENGTH] characters of the alphabet. *)
Definition is_token (T : list ascii) : Prop :=
  length T = KEY_LENGTH /\ Forall (fun c => c ∈ charset) T.

(** The alphabet A-Z, a-z, 0-9 by character codes. *)
Definition in_alphabet (c : ascii) : bool :=
  let n := nat_of_ascii c in
  (Nat.leb 65 n && Nat.leb n 90) || (Nat.leb 97 n && Nat.leb n 122) ||
  (Nat.leb 48 n && Nat.leb n 57).





#[global] Instance has_keys_prefix_dec (line : list ascii) : Decision (has_keys_prefix line).
Proof. unfold has_keys_prefix. apply _. Defined.

#[global] Instance no_keys_line_dec (ls : list (list ascii)) : Decision (no_keys_line ls).
Proof. unfold no_keys_line. apply _. Defined.

#[global] Instance lines_fit_dec (f : list ascii) : Decision (lines_fit f).
Proof. unfold lines_fit, fits_buffer. apply _. Defined.

#[global] Instance text_file_dec (f : list ascii) : Decision (text_file f).
Proof. unfold text_file, fits_buffer. apply _. Defined.

(** ** Concrete inputs *)

(** Every call of the system succeeds; the entropy source delivers 32
    zero bytes. *)
Definition os_ok : os :=
  {| urandom_fd := 3; urandom_data := Some (replicate 32 NUL);
     stack_junk := fun _ => NUL;
     fs_readable := true; fs_writable := true; fs_room := None |}.

(** The properties file holds [content] and nothing was printed yet. *)
Definition on_disk (content : list ascii) : world :=
  {| disk := Some content; out := []; err := [] |}.

(** The token built from 32 zero bytes. *)
Definition token_A : list ascii := replicate 32 (Ascii.ascii_of_nat 65).


(** Two lines with the prefix. *)
Definition file_two_keys : list ascii :=
  lit "api.security.keys=a" ++ [LF] ++ lit "api.security.keys=b" ++ [LF].

(** One line of 1030 characters. *)
Definition long_line : list ascii := replicate 1030 (Ascii.ascii_of_nat 120).

Definition file_long_line : list ascii := long_line ++ [LF].

(** A keys line between two other lines. *)
Definition file_sample : list ascii :=
  lit "server.port=8080" ++ [LF] ++ lit "api.security.keys=abc" ++ [LF] ++
  lit "logging.level=INFO" ++ [LF].

(** A keys line holding thirty tokens, as thirty runs leave it: 1007
    characters. *)
Definition token_B : list ascii := lit "ABCDEFGHIJKLMNOPQRSTUVWXYZabcdef".

Definition thirty_keys : list ascii :=
  concat (replicate 29 (token_B ++ [COMMA])) ++ token_B.

Definition file_thirty_keys : list ascii :=
  lit "server.port=8080" ++ [LF] ++ KEYS_PREFIX ++ thirty_keys ++ [LF].

(** A keys line of 1029 characters ending in a carriage return. *)
Definition long_value : list ascii := replicate 1010 (Ascii.ascii_of_nat 107).

Definition file_long_crlf : list ascii := KEYS_PREFIX ++ long_value ++ [CR; LF].

(** Two lines ending in carriage return and line feed. *)
Definition file_crlf : list ascii :=
  lit "server.port=8080" ++ [CR; LF] ++ lit "api.security.keys=abc" ++ [CR; LF].


(** The entropy device opens but [read] fails. *)
Definition os_read_fails : os :=
  {| urandom_fd := 3; urandom_data := None;
     stack_junk := fun _ => NUL;
     fs_readable := true; fs_writable := true; fs_room := None |}.

(** The entropy device does not open. *)
Definition os_no_urandom : os :=
  {| urandom_fd := -1; urandom_data := None;
     stack_junk := fun _ => NUL;
     fs_readable := true; fs_writable := true; fs_room := None |}.

(** The device takes 20 more bytes and then is full. *)
Definition os_disk_full : os :=
  {| urandom_fd := 3; urandom_data := Some (replicate 32 NUL);
     stack_junk := fun _ => NUL;
     fs_readable := true; fs_writable := true; fs_room := Some 20%nat |}.

(** The properties file cannot be opened for reading. *)
Definition os_unreadable : os :=
  {| urandom_fd := 3; urandom_data := Some (replicate 32 NUL);
     stack_junk := fun _ => NUL;
     fs_readable := false; fs_writable := true; fs_room := None |}.

(** ** Further vocabulary *)

(** The 62-symbol alphabet by character codes, independently of the table
    of the source: positions 0 to 25 are A to Z, positions 26 to 51 are a
    to z, positions 52 to 61 are 0 to 9. *)
Definition alphabet_char (j : nat) : ascii :=
  if (j <? 26)%nat then Ascii.ascii_of_nat (65 + j)
  else if (j <? 52)%nat then Ascii.ascii_of_nat (97 + (j - 26))
  else Ascii.ascii_of_nat (48 + (j - 52)).

(** Every value of an [unsigned char]. *)
Definition all_bytes : list ascii := map Ascii.ascii_of_nat (seq 0 256).

(** A text as the editor writes it back when it leaves every line alone:
    unchanged when it is empty or ends in a line feed, and with a line
    feed added otherwise. *)
Definition normalize (f : list ascii) : list ascii :=
  match last f with
  | None => f
  | Some c => if decide (c = LF) then f else f ++ [LF]
  end.

(** The text that a sequence of runs appends to a keys line: a comma and
    the token, for each token in turn. *)
Definition segments (keys : list (list ascii)) : list ascii :=
  concat (map (fun T => lit "," ++ T) keys).

(** The editor invoked once for every token of [keys], in order, up to
    the first invocation that fails. *)
Fixpoint add_keys (e : os) (keys : list (list ascii)) (w : world) : Z * world :=
  match keys with
  | [] => (0, w)
  | T :: keys' =>
      let '(r, w') := add_key_to_properties e T w in
      if r =? 0 then add_keys e keys' w' else (r, w')
  end.

(** ** The index as the source declares it *)

(** [num_lines] is a [size_t]: 64 bits without sign. *)
Definition size_t_of_nat (n : nat) : Z := Z.of_nat n mod 18446744073709551616.

(** The conversion of a [size_t] to [int]: the value is reduced modulo
    2^32 into the range from -2^31 to 2^31 - 1. *)
Definition int_of_size_t (n : Z) : Z := (n + 2147483648) mod 4294967296 - 2147483648.

(** The reading loop with [key_line_index] kept in an [int], as
    [key_line_index = num_lines] stores it. *)
Fixpoint read_loop_int (fuel : nat) (stream : list ascii)
    (lines : list (list ascii)) (key_line_index : Z) : list (list ascii) * Z :=
  match fuel with
  | O => (lines, key_line_index)
  | S fuel' =>
      match fgets MAX_LINE_LENGTH stream with
      | None => (lines, key_line_index)
      | Some (buf, stream') =>
          let line := strip_newline buf in
          let key_line_index :=
            if is_keys_line line then int_of_size_t (size_t_of_nat (length lines))
            else key_line_index in
          read_loop_int fuel' stream' (lines ++ [line]) key_line_index
      end
  end.

Definition read_file_int (content : list ascii) : list (list ascii) * Z :=
  read_loop_int (length content) content [] (-1).

(** ** Further concrete inputs *)

(** The entropy device delivers the 32 bytes 3, 11, 19, ..., 251, which
    reach letters of both cases and digits. *)
Definition varied_bytes : list ascii :=
  map (fun i => Ascii.ascii_of_nat (i * 8 + 3)) (seq 0 32).

Definition os_varied : os :=
  {| urandom_fd := 3; urandom_data := Some varied_bytes;
     stack_junk := fun _ => NUL;
     fs_readable := true; fs_writable := true; fs_room := None |}.

(** The entropy device delivers two bytes only; the buffer held other
    bytes before. *)
Definition os_short_read : os :=
  {| urandom_fd := 3;
     urandom_data := Some [Ascii.ascii_of_nat 1; Ascii.ascii_of_nat 2];
     stack_junk := fun i => Ascii.ascii_of_nat (200 + i);
     fs_readable := true; fs_writable := true; fs_room := None |}.

(** The properties file cannot be opened for writing. *)
Definition os_unwritable : os :=
  {| urandom_fd := 3; urandom_data := Some (replicate 32 NUL);
     stack_junk := fun _ => NUL;
     fs_readable := true; fs_writable := false; fs_room := None |}.

(** A line with a NUL character in it, and a last line without line feed. *)
Definition file_nul : list ascii :=
  lit "ab" ++ [NUL] ++ lit "cd" ++ [LF] ++ lit "ef".

(** No line has the prefix and the last line has no line feed. *)
Definition file_no_keys : list ascii :=
  lit "server.port=8080" ++ [LF] ++ lit "#api.security.keys=old".

(** ** Texts printed by the program *)

Definition MSG_URANDOM : list ascii := lit "Error while opening /dev/urandom".
Definition MSG_READING : list ascii := lit "Error opening application.properties for reading".
Definition MSG_WRITING : list ascii := lit "Error opening application.properties for writing".
Definition MSG_FAILED : list ascii :=
  lit "Failed to add API Key to application.properties" ++ [LF].
Definition MSG_ADDED : list ascii :=
  lit "API Key successfully added to application.properties" ++ [LF].
Definition MSG_KEY (T : list ascii) : list ascii := lit "Generated API Key: " ++ T ++ [LF].

(** A keys line that fills the buffer: 1023 characters. *)
Definition full_keys_line : list ascii :=
  KEYS_PREFIX ++ replicate 1005 (Ascii.ascii_of_nat 107).
(** A decidable fact about concrete data, settled by evaluation. *)
Ltac by_computation := apply (bool_decide_unpack _); vm_compute; exact I.

(** ** C strings *)

Lemma c_str_id (l : list ascii) : NUL ∉ l -> c_str l = l.
Proof.
  induction l as [|c l IH]; simpl; [done|].
  intros Hn. apply not_elem_of_cons in Hn as [Hc Hl].
  destruct (decide (c = NUL)); [congruence|]. by rewrite IH.
Qed.

Lemma c_str_prefix (l : list ascii) : c_str l `prefix_of` l.
Proof.
  induction l as [|c l IH]; simpl; [done|].
  destruct (decide (c = NUL)); [apply prefix_nil|]. by apply prefix_cons.
Qed.

Lemma c_str_length (l : list ascii) : (length (c_str l) <= length l)%nat.
Proof. apply prefix_length, c_str_prefix. Qed.

Lemma c_str_nul_free (l : list ascii) : NUL ∉ c_str l.
Proof.
  induction l as [|c l IH]; simpl; [apply not_elem_of_nil|].
  destruct (decide (c = NUL)); [apply not_elem_of_nil|].
  apply not_elem_of_cons. split; [congruence|done].
Qed.

Lemma c_str_app_nul (l r : list ascii) : NUL ∉ l -> c_str (l ++ NUL :: r) = l.
Proof.
  induction l as [|c l IH]; simpl; intros Hn.
  - by destruct (decide (NUL = NUL)).
  - apply not_elem_of_cons in Hn as [Hc Hl].
    destruct (decide (c = NUL)); [congruence|]. by rewrite IH.
Qed.

Lemma c_str_app (l r : list ascii) : NUL ∉ l -> c_str (l ++ r) = l ++ c_str r.
Proof.
  induction l as [|c l IH]; simpl; intros Hn; [done|].
  apply not_elem_of_cons in Hn as [Hc Hl].
  destruct (decide (c = NUL)); [congruence|]. by rewrite IH.
Qed.

(** When the buffer holds a NUL, the string stops before it. *)
Lemma c_str_cut (l : list ascii) :
  NUL ∈ l -> (length (c_str l) < length l)%nat /\ forall r, c_str (l ++ r) = c_str l.
Proof.
  induction l as [|c l IH]; simpl; intros Hin; [by apply elem_of_nil in Hin|].
  destruct (decide (c = NUL)) as [->|Hc]; simpl.
  - split; [lia|done].
  - apply elem_of_cons in Hin as [?|Hin]; [congruence|].
    destruct (IH Hin) as [Hlen Happ]. split; [lia|]. intros r. by rewrite Happ.
Qed.

(** [strncmp] against a literal over the literal's length tests for a
    prefix. *)
Lemma strncmp_eq_prefix (p s : list ascii) :
  strncmp_eq s p (length p) = true <-> p `prefix_of` s.
Proof.
  revert s. induction p as [|c p IH]; intros s; simpl.
  - split; [intros _; apply prefix_nil|done].
  - destruct s as [|d s].
    + split; [done|]. intros H. by apply prefix_nil_not in H.
    + destruct (decide (d = c)) as [->|Hne].
      * rewrite IH. split; [apply prefix_cons|apply prefix_cons_inv_2].
      * split; [done|]. intros H. apply prefix_cons_inv_1 in H. congruence.
Qed.

Lemma is_keys_line_spec (line : list ascii) :
  is_keys_line line = true <-> has_keys_prefix line.
Proof. unfold is_keys_line, has_keys_prefix. apply (strncmp_eq_prefix KEYS_PREFIX). Qed.

Lemma is_keys_line_false (line : list ascii) :
  is_keys_line line = false <-> ~ has_keys_prefix line.
Proof. rewrite <- is_keys_line_spec. by destruct (is_keys_line line). Qed.

Lemma KEYS_PREFIX_nul_free : NUL ∉ KEYS_PREFIX.
Proof. by_computation. Qed.

(** Cutting a buffer at its first NUL neither creates nor destroys the
    prefix, which holds no NUL. *)
Lemma has_keys_prefix_c_str (l : list ascii) :
  has_keys_prefix (c_str l) <-> has_keys_prefix l.
Proof.
  unfold has_keys_prefix. split.
  - intros H. etrans; [exact H|apply c_str_prefix].
  - intros [r ->]. rewrite c_str_app by apply KEYS_PREFIX_nul_free.
    by apply prefix_app_r.
Qed.

(** ** fgets and the stripping of the line feed *)

Lemma fgets_chars_line (room : nat) (l rest : list ascii) :
  LF ∉ l -> (length l < room)%nat ->
  fgets_chars room (l ++ LF :: rest) = (l ++ [LF], rest).
Proof.
  revert room. induction l as [|c l IH]; intros room Hl Hlen; simpl in *.
  - destruct room; [lia|]. by destruct (decide (LF = LF)).
  - apply not_elem_of_cons in Hl as [Hc Hl]. destruct room; [lia|].
    destruct (decide (c = LF)); [congruence|]. rewrite IH by first [done | lia]. done.
Qed.

Lemma fgets_chars_eof (room : nat) (l : list ascii) :
  LF ∉ l -> (length l <= room)%nat -> fgets_chars room l = (l, []).
Proof.
  revert room. induction l as [|c l IH]; intros room Hl Hlen; simpl in *.
  - by destruct room.
  - apply not_elem_of_cons in Hl as [Hc Hl]. destruct room; [lia|].
    destruct (decide (c = LF)); [congruence|]. rewrite IH by first [done | lia]. done.
Qed.

(** A line that does not fit is cut after [room] characters and the rest
    stays in the stream. *)
Lemma fgets_chars_full (room : nat) (l rest : list ascii) :
  LF ∉ l -> (room <= length l)%nat ->
  fgets_chars room (l ++ rest) = (take room l, drop room l ++ rest).
Proof.
  revert room. induction l as [|c l IH]; intros room Hl Hlen; simpl in *.
  - assert (room = O) as -> by lia. by destruct rest.
  - apply not_elem_of_cons in Hl as [Hc Hl]. destruct room as [|room]; [done|].
    destruct (decide (c = LF)); [congruence|]. rewrite IH by first [done | lia]. done.
Qed.

Lemma fgets_chars_split (room : nat) (s : list ascii) :
  fst (fgets_chars room s) ++ snd (fgets_chars room s) = s.
Proof.
  revert room. induction s as [|c s IH]; intros room; [by destruct room|].
  destruct room as [|room]; simpl; [done|].
  destruct (decide (c = LF)); [done|].
  specialize (IH room). destruct (fgets_chars room s). simpl in *. by f_equal.
Qed.

Lemma fgets_chars_progress (room : nat) (c : ascii) (s : list ascii) :
  (length (snd (fgets_chars (S room) (c :: s))) <= length s)%nat.
Proof.
  pose proof (fgets_chars_split room s) as Hs. simpl.
  destruct (decide (c = LF)); [done|].
  destruct (fgets_chars room s) as [buf rest]. simpl in *.
  rewrite <- Hs, length_app. lia.
Qed.

Lemma strip_newline_no_lf (l : list ascii) : LF ∉ l -> strip_newline l = c_str l.
Proof.
  intros Hl. unfold strip_newline.
  destruct (bool_decide (0 < length (c_str l))%nat); [|done]. simpl.
  case_bool_decide as Hlk; [|done].
  apply list_elem_of_lookup_2 in Hlk. done.
Qed.

Lemma strip_newline_lf (l : list ascii) : LF ∉ l -> strip_newline (l ++ [LF]) = c_str l.
Proof.
  intros Hl. unfold strip_newline. destruct (decide (NUL ∈ l)) as [Hn|Hn].
  - destruct (c_str_cut l Hn) as [Hlen Hcut]. rewrite !Hcut.
    destruct (bool_decide (0 < length (c_str l))%nat); [|done]. simpl.
    case_bool_decide as Hlk; [|done].
    rewrite lookup_app_l in Hlk by lia. apply list_elem_of_lookup_2 in Hlk. done.
  - rewrite (c_str_app l [LF]) by done. rewrite (c_str_id l) by done.
    change (c_str [LF]) with [LF]. rewrite length_app. simpl.
    replace (length l + 1 - 1)%nat with (length l) by lia.
    rewrite bool_decide_eq_true_2 by lia. simpl.
    rewrite list_lookup_middle by done. rewrite bool_decide_eq_true_2 by done.
    rewrite insert_app_r_alt by lia. replace (length l - length l)%nat with O by lia.
    simpl. by rewrite c_str_app_nul.
Qed.

(** ** Lines of a text *)

Lemma split_lines_line (l rest : list ascii) :
  LF ∉ l -> split_lines (l ++ LF :: rest) = l :: split_lines rest.
Proof.
  induction l as [|c l IH]; intros Hl; simpl.
  - by destruct (decide (LF = LF)).
  - apply not_elem_of_cons in Hl as [Hc Hl].
    destruct (decide (c = LF)); [congruence|]. by rewrite IH.
Qed.

Lemma split_lines_last (l : list ascii) : LF ∉ l -> l <> [] -> split_lines l = [l].
Proof.
  induction l as [|c l IH]; intros Hl Hne; [done|]. simpl.
  apply not_elem_of_cons in Hl as [Hc Hl].
  destruct (decide (c = LF)); [congruence|].
  destruct l as [|d l]; [done|]. by rewrite IH.
Qed.

(** Every text starts with a line, closed by a line feed or by the end. *)
Lemma first_line (s : list ascii) :
  exists l, (LF ∉ l) /\ (s = l \/ exists rest, s = l ++ LF :: rest).
Proof.
  induction s as [|c s (l & Hl & IH)].
  - exists []. split; [apply not_elem_of_nil|by left].
  - destruct (decide (c = LF)) as [->|Hc].
    + exists []. split; [apply not_elem_of_nil|]. right. by exists s.
    + exists (c :: l). split; [apply not_elem_of_cons; by split|].
      destruct IH as [->|[rest ->]]; [by left|right; by exists rest].
Qed.

Lemma split_lines_lf_free (s : list ascii) : Forall (fun l => LF ∉ l) (split_lines s).
Proof.
  induction s as [|c s IH]; simpl; [constructor|].
  destruct (decide (c = LF)).
  - constructor; [apply not_elem_of_nil|done].
  - destruct (split_lines s) as [|l ls].
    + repeat constructor. apply not_elem_of_cons. split; [congruence|apply not_elem_of_nil].
    + inversion IH; subst. constructor; [|done]. apply not_elem_of_cons. by split.
Qed.

Lemma write_lines_cons (l : list ascii) (ls : list (list ascii)) :
  write_lines (l :: ls) = l ++ LF :: write_lines ls.
Proof. unfold write_lines. simpl. by rewrite <- app_assoc. Qed.

Lemma write_lines_app (ls1 ls2 : list (list ascii)) :
  write_lines (ls1 ++ ls2) = write_lines ls1 ++ write_lines ls2.
Proof. unfold write_lines. by rewrite map_app, concat_app. Qed.

(** Writing lines and splitting the text again gives the lines back, when
    no line holds a line feed. *)
Lemma split_lines_write_lines (ls : list (list ascii)) :
  Forall (fun l => LF ∉ l) ls -> split_lines (write_lines ls) = ls.
Proof.
  induction 1 as [|l ls Hl _ IH]; [done|].
  by rewrite write_lines_cons, split_lines_line, IH.
Qed.

(** ** The reading loop *)

Lemma read_loop_spec (fuel : nat) (stream : list ascii) (lines : list (list ascii)) (k : Z) :
  read_loop fuel stream lines k =
    (lines ++ read_lines fuel stream,
     scan_keys (read_lines fuel stream) (length lines) k).
Proof.
  revert stream lines k. induction fuel as [|fuel IH]; intros stream lines k; simpl.
  - by rewrite app_nil_r.
  - destruct (fgets MAX_LINE_LENGTH stream) as [[buf stream']|]; simpl.
    + rewrite IH, <- app_assoc, length_app. simpl.
      by replace (length lines + 1)%nat with (S (length lines)) by lia.
    + by rewrite app_nil_r.
Qed.

(** Fuel beyond the length of the stream changes nothing: the loop ends
    when [fgets] meets the end of the file. *)
Lemma read_lines_more_fuel (fuel fuel' : nat) (stream : list ascii) :
  (length stream <= fuel)%nat -> (fuel <= fuel')%nat ->
  read_lines fuel' stream = read_lines fuel stream.
Proof.
  revert fuel' stream. induction fuel as [|fuel IH]; intros fuel' stream Hlen Hle.
  - destruct stream; [|simpl in Hlen; lia]. by destruct fuel'.
  - destruct fuel' as [|fuel']; [lia|]. destruct stream as [|c s]; [done|].
    cbn [read_lines fgets]. change (MAX_LINE_LENGTH - 1)%nat with 1023%nat.
    pose proof (fgets_chars_progress 1022 c s) as Hp.
    destruct (fgets_chars 1023 (c :: s)) as [buf rest]. simpl in Hp, Hlen.
    f_equal. apply IH; lia.
Qed.

Lemma read_loop_fuel (fuel : nat) (stream : list ascii) (lines : list (list ascii)) (k : Z) :
  (length stream <= fuel)%nat ->
  read_loop fuel stream lines k = read_loop (length stream) stream lines k.
Proof.
  intros Hlen. rewrite !read_loop_spec.
  by rewrite (read_lines_more_fuel (length stream) fuel).
Qed.

Lemma read_file_spec (content : list ascii) :
  read_file content =
    (read_lines (length content) content,
     scan_keys (read_lines (length content) content) 0 (-1)).
Proof. unfold read_file. by rewrite read_loop_spec. Qed.

(** A first line that fits the buffer with its line feed is stored whole. *)
Lemma read_lines_line (fuel : nat) (l rest : list ascii) :
  LF ∉ l -> (length l + 2 <= MAX_LINE_LENGTH)%nat ->
  read_lines (S fuel) (l ++ LF :: rest) = c_str l :: read_lines fuel rest.
Proof.
  intros Hl Hlen. unfold MAX_LINE_LENGTH in Hlen. cbn [read_lines].
  assert (fgets MAX_LINE_LENGTH (l ++ LF :: rest) = Some (l ++ [LF], rest)) as ->.
  { unfold fgets. destruct (l ++ LF :: rest) eqn:E; [by destruct l|].
    rewrite <- E. f_equal. apply fgets_chars_line; [done|]. unfold MAX_LINE_LENGTH. lia. }
  by rewrite strip_newline_lf.
Qed.

(** A last line without line feed is stored whole when it fits. *)
Lemma read_lines_last (fuel : nat) (l : list ascii) :
  LF ∉ l -> l <> [] -> (length l + 1 <= MAX_LINE_LENGTH)%nat ->
  read_lines (S fuel) l = [c_str l].
Proof.
  intros Hl Hne Hlen. unfold MAX_LINE_LENGTH in Hlen. cbn [read_lines].
  assert (fgets MAX_LINE_LENGTH l = Some (l, [])) as ->.
  { unfold fgets. destruct l eqn:E; [done|].
    rewrite <- E in *. f_equal. apply fgets_chars_eof; [done|]. unfold MAX_LINE_LENGTH. lia. }
  rewrite strip_newline_no_lf by done. f_equal. by destruct fuel.
Qed.

(** A first line too long for the buffer is cut: its first 1023 characters
    are stored as a line of their own and reading goes on with the rest. *)
Lemma read_lines_cut (fuel : nat) (l rest : list ascii) :
  LF ∉ l -> (MAX_LINE_LENGTH - 1 <= length l)%nat ->
  read_lines (S fuel) (l ++ rest) =
    c_str (take (MAX_LINE_LENGTH - 1) l) ::
    read_lines fuel (drop (MAX_LINE_LENGTH - 1) l ++ rest).
Proof.
  intros Hl Hlen. cbn [read_lines].
  assert (fgets MAX_LINE_LENGTH (l ++ rest) =
    Some (take (MAX_LINE_LENGTH - 1) l, drop (MAX_LINE_LENGTH - 1) l ++ rest)) as ->.
  { unfold fgets. destruct (l ++ rest) eqn:E.
    - apply app_eq_nil in E as [-> _]. unfold MAX_LINE_LENGTH in Hlen. simpl in Hlen. lia.
    - rewrite <- E. f_equal. by apply fgets_chars_full. }
  rewrite strip_newline_no_lf; [done|].
  intros Hin. apply Hl. by apply (subseteq_take (MAX_LINE_LENGTH - 1) l).
Qed.

(** The lines of the file all fit the buffer together with their line
    feed. *)
Lemma read_lines_split_lines (fuel : nat) (s : list ascii) :
  (length s <= fuel)%nat ->
  Forall (fun l => (length l + 2 <= MAX_LINE_LENGTH)%nat) (split_lines s) ->
  read_lines fuel s = map c_str (split_lines s).
Proof.
  revert s. induction fuel as [|fuel IH]; intros s Hlen Hfit.
  - by destruct s; [|simpl in Hlen; lia].
  - destruct (first_line s) as (l & Hl & [->|[rest ->]]).
    + destruct (decide (l = [])) as [->|Hne]; [done|].
      rewrite split_lines_last in * by done. inversion Hfit; subst.
      rewrite read_lines_last; [done..|lia].
    + rewrite split_lines_line in * by done. inversion Hfit; subst.
      rewrite read_lines_line by done. simpl. f_equal. apply IH; [|done].
      rewrite length_app in Hlen. simpl in Hlen. lia.
Qed.

(** ** The remembered index *)

Lemma scan_keys_absent (ls : list (list ascii)) (n : nat) (k : Z) :
  no_keys_line ls -> scan_keys ls n k = k.
Proof.
  intros H. revert n. induction H as [|l ls Hl _ IH]; intros n; simpl; [done|].
  apply is_keys_line_false in Hl. by rewrite Hl, IH.
Qed.

Lemma scan_keys_app (ls1 ls2 : list (list ascii)) (n : nat) (k : Z) :
  scan_keys (ls1 ++ ls2) n k = scan_keys ls2 (n + length ls1) (scan_keys ls1 n k).
Proof.
  revert n k. induction ls1 as [|l ls1 IH]; intros n k; simpl.
  - by rewrite Nat.add_0_r.
  - rewrite IH. f_equal. lia.
Qed.

(** The loop remembers the last line with the prefix. *)
Lemma scan_keys_found (ls : list (list ascii)) (i : nat) (l : list ascii) (k : Z) :
  last_keys_line ls i l -> scan_keys ls 0 k = Z.of_nat i.
Proof.
  intros (Hi & Hl & Hlast).
  rewrite <- (take_drop_middle ls i l Hi), scan_keys_app. simpl.
  apply is_keys_line_spec in Hl as Hb. rewrite Hb.
  rewrite scan_keys_absent.
  - f_equal. rewrite length_take. apply lookup_lt_Some in Hi. lia.
  - apply Forall_lookup_2. intros j l' Hj Hp. rewrite lookup_drop in Hj.
    specialize (Hlast _ _ Hj Hp). lia.
Qed.

(** Either no line has the prefix or there is a last one that has. *)
Lemma keys_line_cases (ls : list (list ascii)) :
  no_keys_line ls \/ exists i l, last_keys_line ls i l.
Proof.
  induction ls as [|l ls IH].
  - left. constructor.
  - destruct IH as [Hno|(i & l' & Hi & Hl & Hlast)].
    + destruct (is_keys_line l) eqn:E.
      * right. exists O, l. split; [done|]. split; [by apply is_keys_line_spec|].
        intros [|j] l' Hj Hp; [lia|]. simpl in Hj.
        by destruct (proj1 (Forall_lookup _ _) Hno j l' Hj).
      * left. constructor; [by apply is_keys_line_false|done].
    + right. exists (S i), l'. split; [done|]. split; [done|].
      intros [|j] l'' Hj Hp; [lia|]. simpl in Hj. specialize (Hlast _ _ Hj Hp). lia.
Qed.


(** Cutting lines at a NUL keeps the lines with the prefix where they are. *)
Lemma no_keys_line_c_str (ls : list (list ascii)) :
  no_keys_line ls -> no_keys_line (map c_str ls).
Proof.
  unfold no_keys_line. rewrite Forall_map. intros H.
  eapply Forall_impl; [exact H|]. intros l Hl Hp. by apply Hl, has_keys_prefix_c_str.
Qed.

Lemma last_keys_line_c_str (ls : list (list ascii)) (i : nat) (l : list ascii) :
  last_keys_line ls i l -> last_keys_line (map c_str ls) i (c_str l).
Proof.
  intros (Hi & Hl & Hlast). split; [|split].
  - by rewrite list_lookup_fmap, Hi.
  - by apply has_keys_prefix_c_str.
  - intros j l' Hj Hp. rewrite list_lookup_fmap in Hj.
    destruct (ls !! j) as [l0|] eqn:E; [|done]. simpl in Hj. injection Hj as <-.
    apply (Hlast j l0 E). by apply has_keys_prefix_c_str.
Qed.

(** ** The edit in memory *)

Lemma update_lines_absent (ls : list (list ascii)) (T : list ascii) :
  no_keys_line ls ->
  update_lines ls (scan_keys ls 0 (-1)) T =
    (ls ++ [snprintf MAX_LINE_LENGTH (KEYS_PREFIX ++ T)], true).
Proof. intros H. by rewrite scan_keys_absent. Qed.

Lemma update_lines_found (ls : list (list ascii)) (i : nat) (l T : list ascii) :
  last_keys_line ls i l ->
  update_lines ls (scan_keys ls 0 (-1)) T =
    (<[i := snprintf MAX_LINE_LENGTH (l ++ lit "," ++ T)]> ls, false).
Proof.
  intros H. rewrite (scan_keys_found ls i l) by done. destruct H as (Hi & _).
  unfold update_lines. destruct (Z.of_nat i =? -1) eqn:E; [apply Z.eqb_eq in E; lia|].
  by rewrite Nat2Z.id, Hi.
Qed.

(** ** The editor on a file that opens both times *)

Lemma add_key_to_properties_ok (e : os) (T : list ascii) (w : world) (f : list ascii) :
  file_io_ok e w f ->
  add_key_to_properties e T w =
    (0, set_disk
          (write_lines (fst (update_lines (fst (read_file f)) (snd (read_file f)) T)))
          (if snd (update_lines (fst (read_file f)) (snd (read_file f)) T)
           then eprintf WARNING w else w)).
Proof.
  intros (Hr & Hw & Hroom). unfold add_key_to_properties, rewrite_file.
  rewrite Hr, Hw, Hroom. destruct (read_file f) as [ls k]. simpl.
  by destruct (update_lines ls k T) as [ls' warn].
Qed.

Lemma read_file_lines_fit (f : list ascii) :
  lines_fit f ->
  read_file f = (map c_str (split_lines f), scan_keys (map c_str (split_lines f)) 0 (-1)).
Proof. intros H. by rewrite read_file_spec, read_lines_split_lines. Qed.

Lemma text_file_lines_fit (f : list ascii) : text_file f -> lines_fit f.
Proof. intros H. eapply Forall_impl; [exact H|]. by intros l [Hl _]. Qed.

Lemma text_file_c_str (f : list ascii) : text_file f -> map c_str (split_lines f) = split_lines f.
Proof.
  unfold text_file. induction 1 as [|l ls [_ Hl] _ IH]; simpl; [done|].
  by rewrite c_str_id, IH.
Qed.

Lemma read_file_text_file (f : list ascii) :
  text_file f -> read_file f = (split_lines f, scan_keys (split_lines f) 0 (-1)).
Proof.
  intros H. rewrite read_file_lines_fit by by apply text_file_lines_fit.
  by rewrite text_file_c_str.
Qed.

(** ** The token generator *)

Lemma charset_length : length charset = 62%nat.
Proof. reflexivity. Qed.

(** The character set of the source is exactly the alphabet A-Z, a-z, 0-9. *)
Lemma charset_alphabet (c : ascii) : c ∈ charset <-> in_alphabet c = true.
Proof.
  assert (bool_decide (c ∈ charset) = in_alphabet c) as <-.
  { destruct c as [[] [] [] [] [] [] [] []]; vm_compute; reflexivity. }
  symmetry. apply bool_decide_eq_true.
Qed.

Lemma key_char_lookup (b : ascii) :
  charset !! (nat_of_ascii b mod 62)%nat = Some (key_char b).
Proof.
  unfold key_char. change (sizeof_charset - 1)%nat with 62%nat.
  assert (nat_of_ascii b mod 62 < length charset)%nat as Hlt.
  { rewrite charset_length. apply Nat.mod_upper_bound. lia. }
  apply lookup_lt_is_Some in Hlt as [c Hc]. rewrite Hc. f_equal.
  symmetry. by apply nth_lookup_Some.
Qed.

Lemma key_char_in_charset (b : ascii) : key_char b ∈ charset.
Proof. eapply list_elem_of_lookup_2, key_char_lookup. Qed.

Lemma read_into_length (data : option (list ascii)) (junk : list ascii) :
  length (read_into data junk) = length junk.
Proof.
  destruct data as [bytes|]; simpl; [|done].
  rewrite length_app, length_drop, length_take. lia.
Qed.

Lemma read_into_full (bytes junk : list ascii) :
  length bytes = length junk -> read_into (Some bytes) junk = bytes.
Proof.
  intros H. simpl. rewrite take_ge by lia. rewrite drop_ge by lia. apply app_nil_r.
Qed.

(** Whatever the buffer holds, the key built from it is a token. *)
Lemma generate_api_key_is_token (e : os) (w w' : world) (key : list ascii) :
  generate_api_key e KEY_LENGTH w = Ret key w' -> is_token key /\ w' = w.
Proof.
  unfold generate_api_key. destruct (urandom_fd e <? 0); [done|].
  intros [= <- <-]. split; [|done]. split.
  - by rewrite length_map, read_into_length.
  - apply Forall_map, Forall_forall. intros b _. apply key_char_in_charset.
Qed.

Lemma token_chars (T : list ascii) (c : ascii) : is_token T -> c ∉ charset -> c ∉ T.
Proof.
  intros [_ HT] Hc Hin. apply Hc. by apply (proj1 (Forall_forall _ _) HT).
Qed.

Lemma token_lf_free (T : list ascii) : is_token T -> LF ∉ T.
Proof. intros H. apply (token_chars T LF H). rewrite charset_alphabet. done. Qed.


Lemma token_nul_free (T : list ascii) : is_token T -> NUL ∉ T.
Proof. intros H. apply (token_chars T NUL H). rewrite charset_alphabet. done. Qed.

(** The table of the source holds the alphabet in order: A to Z, then a
    to z, then 0 to 9. *)
Lemma charset_in_order (j : nat) :
  (j < 62)%nat -> charset !! j = Some (alphabet_char j).
Proof.
  intros Hj.
  assert (forallb (fun j => bool_decide (charset !! j = Some (alphabet_char j)))
            (seq 0 62) = true) as Hall by (vm_compute; reflexivity).
  rewrite forallb_forall in Hall. eapply bool_decide_eq_true_1, Hall, in_seq. lia.
Qed.

(** C3. When the entropy source opens and delivers 32 bytes [bs], the
    generator returns a token of length exactly 32 whose i-th character is
    the character at index [bs_i mod 62] of the 62-symbol alphabet A-Z,
    a-z, 0-9 in that order (positions 0 to 25 the capitals, 26 to 51 the
    small letters, 52 to 61 the digits, which is what the character set
    of the source holds), and every character of it lies in that
    alphabet. *)
Theorem generate_api_key_shape (e : os) (w : world) (bs : list ascii) :
  0 <= urandom_fd e ->
  urandom_data e = Some bs ->
  length bs = KEY_LENGTH ->
  exists key,
    generate_api_key e KEY_LENGTH w = Ret key w /\
    length key = 32%nat /\
    length charset = 62%nat /\
    (forall j, (j < 62)%nat -> charset !! j = Some (alphabet_char j)) /\
    (forall i b, bs !! i = Some b ->
       key !! i = Some (alphabet_char (nat_of_ascii b mod 62)) /\
       key !! i = charset !! (nat_of_ascii b mod 62)%nat /\ is_Some (key !! i)) /\
    Forall (fun c => in_alphabet c = true) key.
Proof.
  intros Hfd Hdata Hlen. exists (map key_char bs).
  assert (generate_api_key e KEY_LENGTH w = Ret (map key_char bs) w) as Hrun.
  { unfold generate_api_key. rewrite Hdata.
    destruct (urandom_fd e <? 0) eqn:E; [apply Z.ltb_lt in E; lia|].
    rewrite read_into_full; [done|]. by rewrite length_map, length_seq. }
  split; [done|]. split; [by rewrite length_map|]. split; [done|].
  split; [exact charset_in_order|]. split.
  - intros i b Hb.
    assert (map key_char bs !! i = Some (key_char b)) as ->
      by (by rewrite list_lookup_fmap, Hb).
    rewrite <- key_char_lookup. split; [|split; [done|]].
    + apply charset_in_order, Nat.mod_upper_bound. lia.
    + rewrite key_char_lookup. by eauto.
  - apply Forall_map, Forall_forall. intros b _. apply charset_alphabet, key_char_in_charset.
Qed.

Lemma generate_api_key_shape_witness :
  exists key,
    generate_api_key os_varied KEY_LENGTH (on_disk []) = Ret key (on_disk []) /\
    length key = 32%nat /\
    length charset = 62%nat /\
    (forall j, (j < 62)%nat -> charset !! j = Some (alphabet_char j)) /\
    (forall i b, varied_bytes !! i = Some b ->
       key !! i = Some (alphabet_char (nat_of_ascii b mod 62)) /\
       key !! i = charset !! (nat_of_ascii b mod 62)%nat /\ is_Some (key !! i)) /\
    Forall (fun c => in_alphabet c = true) key.
Proof.
  apply (generate_api_key_shape os_varied (on_disk []) varied_bytes).
  - simpl. lia.
  - reflexivity.
  - reflexivity.
Defined.

(** The token built from the bytes 3, 11, 19, ..., 251. *)
Lemma generate_api_key_varied :
  generate_api_key os_varied KEY_LENGTH (on_disk []) =
    Ret (lit "DLTbjrz7FNVdlt19HPXfnv3BJRZhpx5D") (on_disk []).
Proof. vm_compute. reflexivity. Qed.

(** ** The rewritten file *)

Lemma lit_comma : lit "," = [COMMA].
Proof. reflexivity. Qed.

Lemma KEYS_PREFIX_length : length KEYS_PREFIX = 18%nat.
Proof. reflexivity. Qed.

Lemma KEYS_PREFIX_lf_free : LF ∉ KEYS_PREFIX.
Proof. by_computation. Qed.

Lemma snprintf_fits (size : nat) (text : list ascii) :
  (length text + 1 <= size)%nat -> snprintf size text = text.
Proof. intros H. unfold snprintf. apply take_ge. lia. Qed.

Lemma snprintf_free (size : nat) (text : list ascii) (c : ascii) :
  c ∉ text -> c ∉ snprintf size text.
Proof. intros H Hin. apply H. by apply (subseteq_take (size - 1) text). Qed.

(** The buffer is larger than the prefix, so cutting keeps the prefix. *)
Lemma snprintf_keys_prefix (text : list ascii) :
  has_keys_prefix text -> has_keys_prefix (snprintf MAX_LINE_LENGTH text).
Proof.
  intros [r ->]. unfold snprintf, has_keys_prefix.
  rewrite take_app_ge by (rewrite KEYS_PREFIX_length; unfold MAX_LINE_LENGTH; lia).
  by apply prefix_app_r.
Qed.

Lemma c_str_lf_free (ls : list (list ascii)) :
  Forall (fun l => LF ∉ l) ls -> Forall (fun l => LF ∉ l) (map c_str ls).
Proof.
  intros H. apply Forall_map. eapply Forall_impl; [exact H|].
  intros l Hl Hin. apply Hl. destruct (c_str_prefix l) as [r Hr].
  rewrite Hr. apply elem_of_app. by left.
Qed.

Section Rewritten_file.

Context (e : os) (w : world) (f T : list ascii).
Hypothesis Hio : file_io_ok e w f.
Hypothesis HT : LF ∉ T.

(** No line with the prefix: the new line goes to the end and the warning
    is printed. *)
Lemma edit_absent :
  lines_fit f -> no_keys_line (split_lines f) ->
  let ls' := map c_str (split_lines f) ++ [snprintf MAX_LINE_LENGTH (KEYS_PREFIX ++ T)] in
  add_key_to_properties e T w = (0, set_disk (write_lines ls') (eprintf WARNING w)) /\
  split_lines (write_lines ls') = ls'.
Proof.
  intros Hfit Hno ls'. split.
  - rewrite (add_key_to_properties_ok e T w f Hio), read_file_lines_fit by done. simpl.
    by rewrite update_lines_absent by by apply no_keys_line_c_str.
  - apply split_lines_write_lines, Forall_app. split.
    + apply c_str_lf_free, split_lines_lf_free.
    + repeat constructor. apply snprintf_free. intros Hin.
      apply elem_of_app in Hin as [Hin|Hin]; [by apply KEYS_PREFIX_lf_free|done].
Qed.

(** Some line with the prefix: the last one is extended in place and
    nothing is printed. *)
Lemma edit_found (i : nat) (l : list ascii) :
  text_file f -> last_keys_line (split_lines f) i l ->
  let ls' := <[i := snprintf MAX_LINE_LENGTH (l ++ lit "," ++ T)]> (split_lines f) in
  add_key_to_properties e T w = (0, set_disk (write_lines ls') w) /\
  split_lines (write_lines ls') = ls'.
Proof.
  intros Htext Hlast ls'. split.
  - rewrite (add_key_to_properties_ok e T w f Hio), read_file_text_file by done. simpl.
    by rewrite (update_lines_found _ i l).
  - apply split_lines_write_lines, Forall_insert; [apply split_lines_lf_free|].
    apply snprintf_free. intros Hin. destruct Hlast as (Hi & _).
    pose proof (split_lines_lf_free f) as Hfree.
    apply (proj1 (Forall_lookup _ _) Hfree i l) in Hi.
    apply elem_of_app in Hin as [Hin|Hin]; [done|].
    apply elem_of_app in Hin as [Hin|Hin]; [|done].
    rewrite lit_comma in Hin. apply list_elem_of_singleton in Hin. done.
Qed.

End Rewritten_file.

Lemma file_io_ok_printf (e : os) (w : world) (f text : list ascii) :
  file_io_ok e w f -> file_io_ok e (printf text w) f.
Proof. done. Qed.

(** ** main *)

Lemma main_entropy_ok (e : os) (w : world) :
  0 <= urandom_fd e ->
  exists T, is_token T /\ generate_api_key e KEY_LENGTH w = Ret T w /\
    main e w =
      (let w1 := printf (lit "Generated API Key: " ++ T ++ [LF]) w in
       let r := add_key_to_properties e T w1 in
       if fst r =? 0 then
         (0, printf (lit "API Key successfully added to application.properties" ++ [LF]) (snd r))
       else
         (1, eprintf (lit "Failed to add API Key to application.properties" ++ [LF]) (snd r))).
Proof.
  intros Hfd. unfold main.
  destruct (generate_api_key e KEY_LENGTH w) as [T w'|st w'] eqn:E.
  - destruct (generate_api_key_is_token e w w' T E) as [HT ->].
    exists T. split; [done|]. split; [done|]. simpl.
    by destruct (add_key_to_properties _ _ _) as [r w2].
  - unfold generate_api_key in E.
    destruct (urandom_fd e <? 0) eqn:E'; [apply Z.ltb_lt in E'; lia|done].
Qed.

(** The editor answers 0 exactly when both [fopen] calls succeed. *)
Lemma add_key_to_properties_status (e : os) (T : list ascii) (w : world) :
  fst (add_key_to_properties e T w) = 0 <->
  is_Some (fopen_r e w) /\ fs_writable e = true.
Proof.
  unfold add_key_to_properties. destruct (fopen_r e w) as [f|].
  - destruct (read_file f) as [ls k]. destruct (update_lines ls k T) as [ls' warn].
    destruct (fs_writable e); simpl.
    + split; [by eauto|done].
    + split; [done|]. by intros [_ ?].
  - simpl. split; [done|]. by intros [[? ?] _].
Qed.

Lemma add_key_to_properties_status_01 (e : os) (T : list ascii) (w : world) :
  fst (add_key_to_properties e T w) = 0 \/ fst (add_key_to_properties e T w) = 1.
Proof.
  unfold add_key_to_properties. destruct (fopen_r e w) as [f|]; [|by right].
  destruct (read_file f) as [ls k]. destruct (update_lines ls k T) as [ls' warn].
  destruct (fs_writable e); [by left|by right].
Qed.

(** The exit status is 0 exactly when the entropy device and the file,
    for reading and for writing, could be opened. *)
Lemma main_status (e : os) (w : world) :
  fst (main e w) = 0 <->
  0 <= urandom_fd e /\ is_Some (fopen_r e w) /\ fs_writable e = true.
Proof.
  destruct (Z.ltb_spec (urandom_fd e) 0) as [Hneg|Hfd].
  - unfold main, generate_api_key. apply Z.ltb_lt in Hneg as Hb. rewrite Hb. simpl.
    split; [done|]. intros [? _]. lia.
  - destruct (main_entropy_ok e w Hfd) as (T & _ & _ & ->).
    set (w1 := printf _ w). cbv zeta. change (fopen_r e w) with (fopen_r e w1).
    rewrite <- (add_key_to_properties_status e T w1).
    destruct (add_key_to_properties_status_01 e T w1) as [Hr|Hr]; rewrite Hr; simpl.
    + split; [by split|done].
    + split; [done|]. by intros [_ ?].
Qed.

Lemma token_A_is_token : is_token token_A.
Proof.
  split; [reflexivity|]. apply Forall_forall. intros c Hc.
  apply elem_of_replicate_inv in Hc as ->. by apply charset_alphabet.
Qed.

(** ** Several lines with the prefix (C1) *)

Lemma text_file_lookup (f : list ascii) (i : nat) (l : list ascii) :
  text_file f -> split_lines f !! i = Some l ->
  fits_buffer l /\ (NUL ∉ l) /\ (LF ∉ l).
Proof.
  intros Htext Hi.
  destruct (proj1 (Forall_lookup _ _) Htext i l Hi) as [Hfit Hnul].
  split; [done|]. split; [done|].
  apply (proj1 (Forall_lookup _ _) (split_lines_lf_free f) i l Hi).
Qed.

(** The extended line starts with the old line and a comma, even when the
    buffer cuts the token. *)
Lemma extended_line_prefix (l T : list ascii) :
  fits_buffer l ->
  (l ++ [COMMA]) `prefix_of` snprintf MAX_LINE_LENGTH (l ++ lit "," ++ T).
Proof.
  intros Hfit. unfold fits_buffer, MAX_LINE_LENGTH in Hfit.
  unfold snprintf. rewrite lit_comma, app_assoc.
  rewrite take_app_ge by (rewrite length_app; unfold MAX_LINE_LENGTH; simpl; lia).
  by apply prefix_app_r.
Qed.

(** C1, as amended. For every text file within the editor's limits in
    which more than one line has the prefix [api.security.keys=], the
    editor mutates only the last such line, which is the one remembered by
    the read phase: it is extended by a comma and the token, and every
    other line, so every earlier occurrence, is preserved verbatim in the
    output file. *)
Theorem only_last_keys_line_mutated (e : os) (w : world) (f T : list ascii)
    (j1 j2 : nat) (l1 l2 : list ascii) :
  file_io_ok e w f ->
  text_file f ->
  is_token T ->
  (j1 < j2)%nat ->
  split_lines f !! j1 = Some l1 -> has_keys_prefix l1 ->
  split_lines f !! j2 = Some l2 -> has_keys_prefix l2 ->
  exists w' out i l l',
    add_key_to_properties e T w = (0, w') /\
    disk w' = Some out /\
    snd (read_file f) = Z.of_nat i /\
    last_keys_line (split_lines f) i l /\
    (j1 < i)%nat /\
    split_lines out !! i = Some l' /\
    l' <> l /\
    (l ++ [COMMA]) `prefix_of` l' /\
    length (split_lines out) = length (split_lines f) /\
    forall j, j <> i -> split_lines out !! j = split_lines f !! j.
Proof.
  intros Hio Htext HT Hj Hl1 Hp1 Hl2 Hp2.
  destruct (keys_line_cases (split_lines f)) as [Hno|(i & l & Hlast)].
  { by destruct (proj1 (Forall_lookup _ _) Hno j1 l1 Hl1). }
  destruct (edit_found e w f T Hio (token_lf_free T HT) i l Htext Hlast) as [Hrun Hsplit].
  pose proof Hlast as (Hi & Hp & Hmax).
  destruct (text_file_lookup f i l Htext Hi) as (Hfit & _ & _).
  pose proof (extended_line_prefix l T Hfit) as Hpre.
  eexists _, _, i, l, _. split; [exact Hrun|]. split; [reflexivity|].
  split; [by rewrite read_file_text_file, (scan_keys_found _ i l)|].
  split; [done|]. split; [specialize (Hmax j2 l2 Hl2 Hp2); lia|].
  rewrite Hsplit. split; [|split; [|split; [exact Hpre|split]]].
  - apply list_lookup_insert_eq. by apply lookup_lt_Some in Hi.
  - intros Heq. apply prefix_length in Hpre. rewrite Heq, length_app in Hpre.
    simpl in Hpre. lia.
  - apply length_insert.
  - intros j Hne. by apply list_lookup_insert_ne.
Qed.

Lemma only_last_keys_line_mutated_witness :
  exists w' out i l l',
    add_key_to_properties os_ok token_A (on_disk file_two_keys) = (0, w') /\
    disk w' = Some out /\
    snd (read_file file_two_keys) = Z.of_nat i /\
    last_keys_line (split_lines file_two_keys) i l /\
    (0 < i)%nat /\
    split_lines out !! i = Some l' /\
    l' <> l /\
    (l ++ [COMMA]) `prefix_of` l' /\
    length (split_lines out) = length (split_lines file_two_keys) /\
    forall j, j <> i -> split_lines out !! j = split_lines file_two_keys !! j.
Proof.
  apply (only_last_keys_line_mutated os_ok (on_disk file_two_keys) file_two_keys token_A
           0 1 (lit "api.security.keys=a") (lit "api.security.keys=b")).
  - repeat split.
  - by_computation.
  - exact token_A_is_token.
  - lia.
  - reflexivity.
  - by_computation.
  - reflexivity.
  - by_computation.
Defined.

(** C1 as stated fails: in [file_two_keys] the first line with the prefix
    comes out unchanged and the later occurrence is the one that is
    extended, so it is not preserved verbatim. *)
Lemma first_keys_line_not_mutated :
  first_keys_line (split_lines file_two_keys) 0 (lit "api.security.keys=a") /\
  split_lines file_two_keys !! 1%nat = Some (lit "api.security.keys=b") /\
  exists w' out,
    add_key_to_properties os_ok token_A (on_disk file_two_keys) = (0, w') /\
    disk w' = Some out /\
    split_lines out !! 0%nat = Some (lit "api.security.keys=a") /\
    split_lines out !! 1%nat <> Some (lit "api.security.keys=b") /\
    split_lines out !! 1%nat = Some (lit "api.security.keys=b," ++ token_A).
Proof.
  split; [|split; [reflexivity|]].
  - split; [reflexivity|]. split; [by_computation|].
    intros j l' _ _. lia.
  - eexists _, _. split; [vm_compute; reflexivity|]. split; [reflexivity|].
    split; [reflexivity|]. split; [|reflexivity].
    by_computation.
Qed.

(** ** Appending to the keys line (C2, C10) *)

(** When the extended line fits the buffer, the last line with the prefix
    becomes that line, a comma and the token; the other lines stay. *)
Lemma edit_found_fits (e : os) (w : world) (f T : list ascii) (i : nat) (l : list ascii) :
  file_io_ok e w f -> text_file f -> is_token T ->
  last_keys_line (split_lines f) i l ->
  (length (l ++ lit "," ++ T) < MAX_LINE_LENGTH)%nat ->
  exists w' out,
    add_key_to_properties e T w = (0, w') /\
    disk w' = Some out /\
    err w' = err w /\
    out = write_lines (split_lines out) /\
    split_lines out = <[i := l ++ lit "," ++ T]> (split_lines f).
Proof.
  intros Hio Htext HT Hlast Hfit.
  destruct (edit_found e w f T Hio (token_lf_free T HT) i l Htext Hlast) as [Hrun Hsplit].
  rewrite snprintf_fits in Hrun, Hsplit by lia.
  eexists _, _. split; [exact Hrun|]. split; [reflexivity|]. split; [reflexivity|].
  by rewrite Hsplit.
Qed.

(** Append semantics within the buffer: a keys line [api.security.keys=v]
    whose extension fits the buffer reads [api.security.keys=v,T]
    afterwards, also when [v] is empty. *)
Lemma append_semantics (e : os) (w : world) (f T : list ascii) (i : nat) (v : list ascii) :
  file_io_ok e w f -> text_file f -> is_token T ->
  last_keys_line (split_lines f) i (KEYS_PREFIX ++ v) ->
  (length (KEYS_PREFIX ++ v ++ lit "," ++ T) < MAX_LINE_LENGTH)%nat ->
  exists w' out,
    add_key_to_properties e T w = (0, w') /\
    disk w' = Some out /\
    split_lines out !! i = Some (KEYS_PREFIX ++ v ++ lit "," ++ T).
Proof.
  intros Hio Htext HT Hlast Hfit.
  destruct (edit_found_fits e w f T i (KEYS_PREFIX ++ v) Hio Htext HT Hlast)
    as (w' & out & Hrun & Hdisk & _ & _ & Hsplit).
  { by rewrite <- app_assoc. }
  exists w', out. split; [done|]. split; [done|]. rewrite Hsplit, <- app_assoc.
  apply list_lookup_insert_eq. destruct Hlast as (Hi & _). by apply lookup_lt_Some in Hi.
Qed.

Lemma append_to_empty_value :
  exists w' out,
    add_key_to_properties os_ok token_A (on_disk (lit "api.security.keys=" ++ [LF])) = (0, w') /\
    disk w' = Some out /\
    split_lines out !! 0%nat = Some (lit "api.security.keys=," ++ token_A).
Proof.
  apply (append_semantics os_ok (on_disk (lit "api.security.keys=" ++ [LF]))
           (lit "api.security.keys=" ++ [LF]) token_A 0 []).
  - repeat split.
  - by_computation.
  - exact token_A_is_token.
  - split; [reflexivity|]. split; [by_computation|].
    intros [|j] l' Hj _; [lia|]. by destruct j.
  - vm_compute. lia.
Defined.

(** C2 fails on the code. The keys line of [file_thirty_keys] has 1007
    characters, within the maximum line length. The invocation succeeds,
    yet the line does not read [api.security.keys=v,T] afterwards: the
    text is cut at 1023 characters and only the first 15 characters of the
    token are written. *)
Theorem append_cut_at_buffer_size :
  text_file file_thirty_keys /\
  split_lines file_thirty_keys = [lit "server.port=8080"; KEYS_PREFIX ++ thirty_keys] /\
  length (KEYS_PREFIX ++ thirty_keys) = 1007%nat /\
  is_token token_A /\
  exists w' out,
    add_key_to_properties os_ok token_A (on_disk file_thirty_keys) = (0, w') /\
    disk w' = Some out /\
    split_lines out =
      [lit "server.port=8080"; KEYS_PREFIX ++ thirty_keys ++ lit "," ++ take 15 token_A] /\
    split_lines out !! 1%nat <> Some (KEYS_PREFIX ++ thirty_keys ++ lit "," ++ token_A) /\
    fst (main os_ok (on_disk file_thirty_keys)) = 0.
Proof.
  split; [by_computation|].
  split; [vm_compute; reflexivity|]. split; [reflexivity|].
  split; [exact token_A_is_token|].
  eexists _, _. split; [vm_compute; reflexivity|]. split; [reflexivity|].
  split; [vm_compute; reflexivity|]. split; [|vm_compute; reflexivity].
  by_computation.
Qed.

(** C10, as amended. In a text file within the editor's limits exactly
    the line feed that ends a line is taken off before storage, so the
    stored lines are the lines of the file and a carriage return before
    the line feed stays part of the line. For a keys line [...v CR LF]
    whose extension fits the buffer the rewritten line is
    [api.security.keys=v CR,T] followed by a line feed, and every other
    line that ends in a carriage return keeps it in the output. *)
Theorem carriage_return_kept (e : os) (w : world) (f T : list ascii) (i : nat) (v : list ascii) :
  file_io_ok e w f ->
  text_file f ->
  is_token T ->
  last_keys_line (split_lines f) i (KEYS_PREFIX ++ v ++ [CR]) ->
  (length (KEYS_PREFIX ++ v ++ [CR] ++ lit "," ++ T) < MAX_LINE_LENGTH)%nat ->
  fst (read_file f) = split_lines f /\
  exists w' out,
    add_key_to_properties e T w = (0, w') /\
    disk w' = Some out /\
    out = write_lines (split_lines out) /\
    split_lines out !! i = Some (KEYS_PREFIX ++ v ++ [CR] ++ lit "," ++ T) /\
    forall j l, j <> i -> split_lines f !! j = Some (l ++ [CR]) ->
      split_lines out !! j = Some (l ++ [CR]).
Proof.
  intros Hio Htext HT Hlast Hfit. split; [by rewrite read_file_text_file|].
  destruct (edit_found_fits e w f T i (KEYS_PREFIX ++ v ++ [CR]) Hio Htext HT Hlast)
    as (w' & out & Hrun & Hdisk & _ & Hout & Hsplit).
  { by rewrite <- !app_assoc. }
  exists w', out. split; [done|]. split; [done|]. split; [done|].
  rewrite Hsplit, <- !app_assoc. split.
  - apply list_lookup_insert_eq. destruct Hlast as (Hi & _). by apply lookup_lt_Some in Hi.
  - intros j l Hne Hj. by rewrite list_lookup_insert_ne.
Qed.

Lemma carriage_return_kept_witness :
  fst (read_file file_crlf) = split_lines file_crlf /\
  exists w' out,
    add_key_to_properties os_ok token_A (on_disk file_crlf) = (0, w') /\
    disk w' = Some out /\
    out = write_lines (split_lines out) /\
    split_lines out !! 1%nat =
      Some (KEYS_PREFIX ++ lit "abc" ++ [CR] ++ lit "," ++ token_A) /\
    forall j l, j <> 1%nat -> split_lines file_crlf !! j = Some (l ++ [CR]) ->
      split_lines out !! j = Some (l ++ [CR]).
Proof.
  apply (carriage_return_kept os_ok (on_disk file_crlf) file_crlf token_A 1 (lit "abc")).
  - repeat split.
  - by_computation.
  - exact token_A_is_token.
  - split; [reflexivity|]. split; [by_computation|].
    intros [|[|j]] l' Hj _; [lia|lia|]. by destruct j.
  - vm_compute. lia.
Defined.

(** C10 as stated fails: the keys line of [file_long_crlf] ends in a
    carriage return and a line feed, and the output holds no line
    [api.security.keys=v CR,T]; the line is cut after 1023 characters and
    the token is not written. *)
Lemma carriage_return_long_line :
  split_lines file_long_crlf = [KEYS_PREFIX ++ long_value ++ [CR]] /\
  exists w' out,
    add_key_to_properties os_ok token_A (on_disk file_long_crlf) = (0, w') /\
    disk w' = Some out /\
    (KEYS_PREFIX ++ long_value ++ [CR] ++ lit "," ++ token_A) ∉ split_lines out.
Proof.
  split; [vm_compute; reflexivity|].
  eexists _, _. split; [vm_compute; reflexivity|]. split; [reflexivity|].
  by_computation.
Qed.

(** ** Preservation of the other lines (C4) *)

Lemma filter_insert_outside {A : Type} (P : A -> Prop) `{forall x, Decision (P x)}
    (ls : list A) (i : nat) (x y : A) :
  ls !! i = Some x -> ~ P x -> ~ P y -> filter P (<[i := y]> ls) = filter P ls.
Proof.
  intros Hi Hx Hy. rewrite insert_take_drop by by apply lookup_lt_Some in Hi.
  rewrite <- (take_drop_middle ls i x Hi) at 3.
  rewrite !filter_app. f_equal. by rewrite !filter_cons_False.
Qed.

Lemma new_line_keys_prefix (T : list ascii) :
  has_keys_prefix (snprintf MAX_LINE_LENGTH (KEYS_PREFIX ++ T)).
Proof. apply snprintf_keys_prefix. by apply prefix_app_r. Qed.

Lemma extended_line_keys_prefix (l T : list ascii) :
  has_keys_prefix l -> has_keys_prefix (snprintf MAX_LINE_LENGTH (l ++ lit "," ++ T)).
Proof. intros H. apply snprintf_keys_prefix. unfold has_keys_prefix. by apply prefix_app_r. Qed.

(** C4, as amended. For every text file within the editor's limits (each
    line at most 1022 characters, no NUL character) and every line [L] of
    it that does not have the prefix [api.security.keys=], after a
    successful invocation [L] is in the output file at the same position
    with the same content, and the lines without the prefix are the same
    in the output as in the input, in the same order. *)
Theorem other_lines_preserved (e : os) (w : world) (f T : list ascii) :
  file_io_ok e w f ->
  text_file f ->
  is_token T ->
  exists w' out,
    add_key_to_properties e T w = (0, w') /\
    disk w' = Some out /\
    (forall j L, split_lines f !! j = Some L -> ~ has_keys_prefix L ->
       split_lines out !! j = Some L) /\
    filter (fun l => ~ has_keys_prefix l) (split_lines out) =
    filter (fun l => ~ has_keys_prefix l) (split_lines f).
Proof.
  intros Hio Htext HT. pose proof (token_lf_free T HT) as Hlf.
  destruct (keys_line_cases (split_lines f)) as [Hno|(i & l & Hlast)].
  - destruct (edit_absent e w f T Hio Hlf (text_file_lines_fit f Htext) Hno) as [Hrun Hsplit].
    rewrite text_file_c_str in * by done.
    eexists _, _. split; [exact Hrun|]. split; [reflexivity|]. rewrite Hsplit. split.
    + intros j L Hj _. by apply lookup_app_l_Some.
    + rewrite filter_app, filter_cons_False, filter_nil, app_nil_r; [done|].
      intros Hn. apply Hn, new_line_keys_prefix.
  - destruct (edit_found e w f T Hio Hlf i l Htext Hlast) as [Hrun Hsplit].
    destruct Hlast as (Hi & Hp & _).
    eexists _, _. split; [exact Hrun|]. split; [reflexivity|]. rewrite Hsplit. split.
    + intros j L Hj Hn. rewrite list_lookup_insert_ne; [done|].
      intros ->. rewrite Hi in Hj. injection Hj as ->. done.
    + apply (filter_insert_outside _ _ i l); [done|by intros Hn; apply Hn|].
      intros Hn. by apply Hn, extended_line_keys_prefix.
Qed.

Lemma other_lines_preserved_witness :
  exists w' out,
    add_key_to_properties os_ok token_A (on_disk file_sample) = (0, w') /\
    disk w' = Some out /\
    (forall j L, split_lines file_sample !! j = Some L -> ~ has_keys_prefix L ->
       split_lines out !! j = Some L) /\
    filter (fun l => ~ has_keys_prefix l) (split_lines out) =
    filter (fun l => ~ has_keys_prefix l) (split_lines file_sample).
Proof.
  apply (other_lines_preserved os_ok (on_disk file_sample) file_sample token_A).
  - repeat split.
  - by_computation.
  - exact token_A_is_token.
Defined.

(** C4 as stated fails: the line of [file_long_line] does not have the
    prefix, the invocation succeeds, and the line is not in the output
    file, where it is cut in two. *)
Lemma long_line_not_preserved :
  long_line ∈ split_lines file_long_line /\
  ~ has_keys_prefix long_line /\
  exists w' out,
    add_key_to_properties os_ok token_A (on_disk file_long_line) = (0, w') /\
    disk w' = Some out /\
    long_line ∉ split_lines out.
Proof.
  split; [|split].
  - by_computation.
  - by_computation.
  - eexists _, _. split; [vm_compute; reflexivity|]. split; [reflexivity|].
    by_computation.
Qed.

(** The limit is exact: a line of 1023 characters fills the buffer, its
    line feed is read as a line of its own, and an empty line follows it
    in the output. *)
Lemma line_of_1023_gains_empty_line :
  exists w' out,
    add_key_to_properties os_ok token_A
      (on_disk (replicate 1023 (Ascii.ascii_of_nat 120) ++ [LF])) = (0, w') /\
    disk w' = Some out /\
    split_lines out =
      [replicate 1023 (Ascii.ascii_of_nat 120); []; KEYS_PREFIX ++ token_A].
Proof.
  eexists _, _. split; [vm_compute; reflexivity|]. split; [reflexivity|].
  vm_compute. reflexivity.
Qed.

(** ** Lines longer than the buffer (C5) *)

Lemma fgets_chars_length (room : nat) (s : list ascii) :
  (length (fst (fgets_chars room s)) <= room)%nat.
Proof.
  revert room. induction s as [|c s IH]; intros room; [destruct room; simpl; lia|].
  destruct room as [|room]; simpl; [lia|].
  destruct (decide (c = LF)); simpl; [lia|].
  specialize (IH room). destruct (fgets_chars room s). simpl in *. lia.
Qed.

(** What [fgets] stores holds a line feed at its end or nowhere. *)
Lemma fgets_chars_shape (room : nat) (s : list ascii) :
  exists l, (LF ∉ l) /\
    (fst (fgets_chars room s) = l \/ fst (fgets_chars room s) = l ++ [LF]).
Proof.
  revert room. induction s as [|c s IH]; intros room.
  - exists []. split; [apply not_elem_of_nil|left; by destruct room].
  - destruct room as [|room]; simpl.
    { exists []. split; [apply not_elem_of_nil|by left]. }
    destruct (decide (c = LF)) as [->|Hc]; simpl.
    { exists []. split; [apply not_elem_of_nil|by right]. }
    destruct (IH room) as (l & Hl & Hs). destruct (fgets_chars room s) as [buf rest].
    simpl in *. exists (c :: l). split; [apply not_elem_of_cons; by split|].
    destruct Hs as [-> | ->]; [by left|by right].
Qed.

Lemma strip_newline_length (buf : list ascii) :
  (length (strip_newline buf) <= length buf)%nat.
Proof.
  unfold strip_newline.
  destruct (_ && _); [|apply c_str_length].
  etrans; [apply c_str_length|]. by rewrite length_insert.
Qed.

(** No stored line is as long as the buffer. *)
Lemma read_lines_bounded (fuel : nat) (s : list ascii) :
  Forall (fun l => (length l < MAX_LINE_LENGTH)%nat) (read_lines fuel s).
Proof.
  revert s. induction fuel as [|fuel IH]; intros s; [constructor|].
  destruct s as [|c s]; [constructor|]. cbn [read_lines fgets].
  change (MAX_LINE_LENGTH - 1)%nat with 1023%nat.
  pose proof (fgets_chars_length 1023 (c :: s)) as Hlen.
  destruct (fgets_chars 1023 (c :: s)) as [buf rest]. simpl in Hlen.
  constructor; [|apply IH].
  pose proof (strip_newline_length buf). unfold MAX_LINE_LENGTH. lia.
Qed.

Lemma filter_lf_free (l : list ascii) : LF ∉ l -> filter (fun c => c <> LF) l = l.
Proof.
  induction l as [|c l IH]; intros Hl; [done|].
  apply not_elem_of_cons in Hl as [Hc Hl]. rewrite filter_cons_True by congruence.
  by rewrite IH.
Qed.

(** In a file without NUL characters the stored lines, put end to end,
    are the characters of the file without its line feeds: a long line is
    stored in pieces and nothing of it is lost. *)
Lemma read_lines_pieces (fuel : nat) (s : list ascii) :
  (length s <= fuel)%nat -> NUL ∉ s ->
  concat (read_lines fuel s) = filter (fun c => c <> LF) s.
Proof.
  revert s. induction fuel as [|fuel IH]; intros s Hlen Hnul.
  - by destruct s; [|simpl in Hlen; lia].
  - destruct s as [|c s]; [done|]. cbn [read_lines fgets].
    change (MAX_LINE_LENGTH - 1)%nat with 1023%nat.
    pose proof (fgets_chars_split 1023 (c :: s)) as Hsplit.
    pose proof (fgets_chars_progress 1022 c s) as Hprog.
    destruct (fgets_chars_shape 1023 (c :: s)) as (l & Hl & Hshape).
    destruct (fgets_chars 1023 (c :: s)) as [buf rest]. simpl in Hsplit, Hprog, Hshape, Hlen.
    rewrite <- Hsplit in Hnul. apply not_elem_of_app in Hnul as [Hnbuf Hnrest].
    rewrite <- Hsplit, filter_app. simpl. rewrite IH by first [done | lia]. f_equal.
    destruct Hshape as [-> | ->].
    + by rewrite strip_newline_no_lf, c_str_id, filter_lf_free.
    + apply not_elem_of_app in Hnbuf as [Hnl _].
      rewrite strip_newline_lf, c_str_id by done.
      rewrite filter_app, filter_lf_free by done.
      rewrite filter_cons_False by (intros Hn; by apply Hn). by rewrite filter_nil, app_nil_r.
Qed.

Lemma fgets_strip_free (room : nat) (s : list ascii) :
  LF ∉ strip_newline (fst (fgets_chars room s)).
Proof.
  destruct (fgets_chars_shape room s) as (l & Hl & [-> | ->]).
  - rewrite strip_newline_no_lf by done. intros Hin. apply Hl.
    destruct (c_str_prefix l) as [r Hr]. rewrite Hr. apply elem_of_app. by left.
  - rewrite strip_newline_lf by done. intros Hin. apply Hl.
    destruct (c_str_prefix l) as [r Hr]. rewrite Hr. apply elem_of_app. by left.
Qed.

Lemma strip_newline_nul_free (buf : list ascii) : NUL ∉ strip_newline buf.
Proof. unfold strip_newline. destruct (_ && _); apply c_str_nul_free. Qed.

Lemma read_lines_clean (fuel : nat) (s : list ascii) :
  Forall (fun l => (NUL ∉ l) /\ (LF ∉ l)) (read_lines fuel s).
Proof.
  revert s. induction fuel as [|fuel IH]; intros s; [constructor|].
  destruct s as [|c s]; [constructor|]. cbn [read_lines fgets].
  pose proof (fgets_strip_free (MAX_LINE_LENGTH - 1) (c :: s)) as Hlf.
  destruct (fgets_chars (MAX_LINE_LENGTH - 1) (c :: s)) as [buf rest]. simpl in Hlf.
  constructor; [|apply IH]. split; [apply strip_newline_nul_free|done].
Qed.

Lemma snprintf_length (text : list ascii) :
  (length (snprintf MAX_LINE_LENGTH text) < MAX_LINE_LENGTH)%nat.
Proof. unfold snprintf. rewrite length_take. unfold MAX_LINE_LENGTH. lia. Qed.

(** The edit on any file content: the stored lines with the new line at
    the end, or with the last line that has the prefix extended. *)
Lemma edit_any_file (e : os) (w : world) (f T : list ascii) :
  file_io_ok e w f -> LF ∉ T ->
  (no_keys_line (fst (read_file f)) /\
   add_key_to_properties e T w =
     (0, set_disk (write_lines (fst (read_file f) ++
                     [snprintf MAX_LINE_LENGTH (KEYS_PREFIX ++ T)])) (eprintf WARNING w)) /\
   split_lines (write_lines (fst (read_file f) ++
                  [snprintf MAX_LINE_LENGTH (KEYS_PREFIX ++ T)])) =
     fst (read_file f) ++ [snprintf MAX_LINE_LENGTH (KEYS_PREFIX ++ T)]) \/
  (exists i l, last_keys_line (fst (read_file f)) i l /\
   add_key_to_properties e T w =
     (0, set_disk (write_lines (<[i := snprintf MAX_LINE_LENGTH (l ++ lit "," ++ T)]>
                     (fst (read_file f)))) w) /\
   split_lines (write_lines (<[i := snprintf MAX_LINE_LENGTH (l ++ lit "," ++ T)]>
                  (fst (read_file f)))) =
     <[i := snprintf MAX_LINE_LENGTH (l ++ lit "," ++ T)]> (fst (read_file f))).
Proof.
  intros Hio HT. rewrite (add_key_to_properties_ok e T w f Hio), read_file_spec.
  cbn [fst snd].
  pose proof (read_lines_clean (length f) f) as Hclean.
  assert (Forall (fun l => LF ∉ l) (read_lines (length f) f)) as Hfree.
  { eapply Forall_impl; [exact Hclean|]. by intros l [_ Hl]. }
  destruct (keys_line_cases (read_lines (length f) f)) as [Hno|(i & l & Hlast)].
  - left. split; [done|]. rewrite update_lines_absent by done. split; [done|].
    apply split_lines_write_lines, Forall_app. split; [done|].
    repeat constructor. apply snprintf_free. intros Hin.
    apply elem_of_app in Hin as [Hin|Hin]; [by apply KEYS_PREFIX_lf_free|done].
  - right. exists i, l. split; [done|]. rewrite (update_lines_found _ i l) by done.
    split; [done|]. apply split_lines_write_lines, Forall_insert; [done|].
    apply snprintf_free. intros Hin. destruct Hlast as (Hi & _).
    apply (proj1 (Forall_lookup _ _) Hfree i l) in Hi.
    apply elem_of_app in Hin as [Hin|Hin]; [done|].
    apply elem_of_app in Hin as [Hin|Hin]; [|done].
    rewrite lit_comma in Hin. by apply list_elem_of_singleton in Hin.
Qed.

(** Each stored line is written back: it is the output line at the same
    position, whole, or as its beginning when it is the line that is
    extended. *)
Lemma stored_lines_written_back (e : os) (w : world) (f T : list ascii) :
  file_io_ok e w f -> LF ∉ T ->
  exists w' text,
    add_key_to_properties e T w = (0, w') /\
    disk w' = Some text /\
    text = write_lines (split_lines text) /\
    Forall (fun l => (length l < MAX_LINE_LENGTH)%nat) (split_lines text) /\
    (length (fst (read_file f)) <= length (split_lines text))%nat /\
    forall j x, fst (read_file f) !! j = Some x ->
      exists y, split_lines text !! j = Some y /\ x `prefix_of` y /\
        (Z.of_nat j <> snd (read_file f) -> y = x).
Proof.
  intros Hio HT.
  assert (Forall (fun l => (length l < MAX_LINE_LENGTH)%nat) (fst (read_file f))) as Hb.
  { rewrite read_file_spec. apply read_lines_bounded. }
  assert (snd (read_file f) = scan_keys (fst (read_file f)) 0 (-1)) as Hidx
    by by rewrite read_file_spec.
  destruct (edit_any_file e w f T Hio HT)
    as [(Hno & Hrun & Hsplit)|(i & l & Hlast & Hrun & Hsplit)].
  - eexists _, _. split; [exact Hrun|]. split; [reflexivity|]. rewrite Hsplit.
    split; [done|]. split; [|split].
    + apply Forall_app. split; [done|]. apply Forall_singleton, snprintf_length.
    + rewrite length_app. lia.
    + intros j x Hj. exists x. split; [by apply lookup_app_l_Some|]. done.
  - pose proof Hlast as (Hi & _).
    eexists _, _. split; [exact Hrun|]. split; [reflexivity|]. rewrite Hsplit.
    split; [done|]. split; [|split].
    + apply Forall_insert; [done|]. apply snprintf_length.
    + by rewrite length_insert.
    + intros j x Hj. destruct (decide (j = i)) as [->|Hne].
      * rewrite Hi in Hj. injection Hj as <-. eexists. split; [|split].
        -- apply list_lookup_insert_eq. by apply lookup_lt_Some in Hi.
        -- unfold snprintf. rewrite take_app_ge.
           ++ by apply prefix_app_r.
           ++ pose proof (proj1 (Forall_lookup _ _) Hb i l Hi) as Hlt.
              cbv beta in Hlt. unfold MAX_LINE_LENGTH in *. lia.
        -- intros Hne. exfalso. apply Hne. by rewrite Hidx, (scan_keys_found _ i l).
      * exists x. split; [by rewrite list_lookup_insert_ne|done].
Qed.

(** C5, as amended. For every input file containing some source line
    longer than the maximum line length, the editor does not fail on that
    account: when the file opens for reading and for writing it returns 0.
    It has no LineTooLong error; the long line is read in pieces shorter
    than the buffer, each stored as a line of its own, so the line is not
    stored whole; when the file holds no NUL character the pieces put end
    to end are the characters of the file. When the writes reach the
    device, every stored piece is written back as a line of its own, at
    its position (the piece at the remembered index, if there is one, as
    the beginning of the extended line), every line of the output is
    shorter than the buffer, and so the long line is not in the output
    file. *)
Theorem long_line_read_in_pieces (e : os) (w : world) (f T L : list ascii) :
  fopen_r e w = Some f ->
  fs_writable e = true ->
  L ∈ split_lines f ->
  (MAX_LINE_LENGTH < length L)%nat ->
  fst (add_key_to_properties e T w) = 0 /\
  Forall (fun l => (length l < MAX_LINE_LENGTH)%nat) (fst (read_file f)) /\
  (L ∉ fst (read_file f)) /\
  (NUL ∉ f -> concat (fst (read_file f)) = filter (fun c => c <> LF) f) /\
  (fs_room e = None -> LF ∉ T ->
   exists w' text,
     add_key_to_properties e T w = (0, w') /\
     disk w' = Some text /\
     text = write_lines (split_lines text) /\
     Forall (fun l => (length l < MAX_LINE_LENGTH)%nat) (split_lines text) /\
     (L ∉ split_lines text) /\
     (length (fst (read_file f)) <= length (split_lines text))%nat /\
     forall j x, fst (read_file f) !! j = Some x ->
       exists y, split_lines text !! j = Some y /\ x `prefix_of` y /\
         (Z.of_nat j <> snd (read_file f) -> y = x)).
Proof.
  intros Hr Hw HL Hlong. split; [|split; [|split; [|split]]].
  - apply add_key_to_properties_status. rewrite Hr. by eauto.
  - rewrite read_file_spec. apply read_lines_bounded.
  - rewrite read_file_spec. intros Hin.
    pose proof (read_lines_bounded (length f) f) as Hb.
    apply (proj1 (Forall_forall _ _) Hb) in Hin. lia.
  - intros Hnul. rewrite read_file_spec. simpl. by apply read_lines_pieces.
  - intros Hroom HT.
    destruct (stored_lines_written_back e w f T) as (w' & text & Hrun & Hd & Ht & Hb & Hn & Hp);
      [done|done|].
    exists w', text. split; [done|]. split; [done|]. split; [done|]. split; [done|].
    split; [|split; [done|done]].
    intros Hin. apply (proj1 (Forall_forall _ _) Hb) in Hin. lia.
Qed.

Lemma long_line_read_in_pieces_witness :
  fst (add_key_to_properties os_ok token_A (on_disk file_long_line)) = 0 /\
  Forall (fun l => (length l < MAX_LINE_LENGTH)%nat) (fst (read_file file_long_line)) /\
  (long_line ∉ fst (read_file file_long_line)) /\
  concat (fst (read_file file_long_line)) = filter (fun c => c <> LF) file_long_line /\
  exists w' text,
    add_key_to_properties os_ok token_A (on_disk file_long_line) = (0, w') /\
    disk w' = Some text /\
    text = write_lines (split_lines text) /\
    Forall (fun l => (length l < MAX_LINE_LENGTH)%nat) (split_lines text) /\
    (long_line ∉ split_lines text) /\
    (length (fst (read_file file_long_line)) <= length (split_lines text))%nat /\
    forall j x, fst (read_file file_long_line) !! j = Some x ->
      exists y, split_lines text !! j = Some y /\ x `prefix_of` y /\
        (Z.of_nat j <> snd (read_file file_long_line) -> y = x).
Proof.
  destruct (long_line_read_in_pieces os_ok (on_disk file_long_line) file_long_line
              token_A long_line) as (Hret & Hshort & Hcut & Hpieces & Hback).
  - reflexivity.
  - reflexivity.
  - by_computation.
  - by_computation.
  - split; [exact Hret|]. split; [exact Hshort|]. split; [exact Hcut|].
    split; [apply Hpieces; by_computation|].
    apply Hback; [reflexivity|exact (token_lf_free token_A token_A_is_token)].
Defined.

(** C5 as stated fails: [file_long_line] has a line of 1030 characters,
    and the editor does not fail; it returns 0 and writes the file back
    with that line cut in two. *)
Lemma long_line_accepted :
  long_line ∈ split_lines file_long_line /\
  (MAX_LINE_LENGTH < length long_line)%nat /\
  exists w' out,
    add_key_to_properties os_ok token_A (on_disk file_long_line) = (0, w') /\
    disk w' = Some out /\
    split_lines out =
      [take 1023 long_line; drop 1023 long_line; KEYS_PREFIX ++ token_A] /\
    fst (main os_ok (on_disk file_long_line)) = 0.
Proof.
  split; [|split].
  - by_computation.
  - by_computation.
  - eexists _, _. split; [vm_compute; reflexivity|]. split; [reflexivity|].
    split; vm_compute; reflexivity.
Qed.

(** ** Failures of the entropy source (C6) *)

(** When the device does not open, the generator prints its diagnostic
    and ends the process with status 1; the file is not touched. *)
Lemma entropy_open_failure (e : os) (w : world) :
  urandom_fd e < 0 ->
  main e w = (1, perror (lit "Error while opening /dev/urandom") w) /\
  disk (snd (main e w)) = disk w /\
  out (snd (main e w)) = out w.
Proof.
  intros Hfd. apply Z.ltb_lt in Hfd. unfold main, generate_api_key. by rewrite Hfd.
Qed.

Lemma entropy_open_failure_example :
  main os_no_urandom (on_disk file_sample) =
    (1, perror (lit "Error while opening /dev/urandom") (on_disk file_sample)).
Proof. apply (entropy_open_failure os_no_urandom (on_disk file_sample)). reflexivity. Qed.

(** The result of [read] is not looked at: when it fails, the key is built
    from whatever the buffer held, and the generator returns normally
    without any diagnostic. *)
Lemma entropy_read_unchecked (e : os) (w : world) :
  0 <= urandom_fd e ->
  urandom_data e = None ->
  generate_api_key e KEY_LENGTH w =
    Ret (map key_char (map (stack_junk e) (seq 0 KEY_LENGTH))) w.
Proof.
  intros Hfd Hdata. unfold generate_api_key. rewrite Hdata.
  destruct (urandom_fd e <? 0) eqn:E; [apply Z.ltb_lt in E; lia|done].
Qed.

(** C6 fails on the code. With [os_read_fails] the device opens and the
    read of the 32 bytes fails. The generator does not fail: it returns a
    token built from the uninitialised buffer, nothing is written to the
    error channel, the file is rewritten with that token and the exit
    status is 0. *)
Theorem entropy_read_failure_ignored :
  0 <= urandom_fd os_read_fails /\
  urandom_data os_read_fails = None /\
  generate_api_key os_read_fails KEY_LENGTH (on_disk file_sample) =
    Ret token_A (on_disk file_sample) /\
  exists w' out,
    main os_read_fails (on_disk file_sample) = (0, w') /\
    err w' = [] /\
    disk w' = Some out /\
    out <> file_sample /\
    split_lines out !! 1%nat = Some (lit "api.security.keys=abc," ++ token_A).
Proof.
  split; [simpl; lia|]. split; [reflexivity|]. split; [reflexivity|].
  eexists _, _. split; [vm_compute; reflexivity|]. split; [reflexivity|].
  split; [reflexivity|]. split; [|vm_compute; reflexivity].
  by_computation.
Qed.

(** ** Creation of the keys line (C7) *)




(** ** The token among the elements of the keys line (C8) *)











(** ** Exit status and the file on disk (C9) *)

(** When the file cannot be opened for reading the editor returns 1
    before any write: the file on disk is unchanged and the exit status
    is 1. *)
Lemma read_open_failure (e : os) (w : world) :
  0 <= urandom_fd e ->
  fopen_r e w = None ->
  fst (main e w) = 1 /\ disk (snd (main e w)) = disk w.
Proof.
  intros Hfd Hr. destruct (main_entropy_ok e w Hfd) as (T & _ & _ & ->). cbv zeta.
  assert (add_key_to_properties e T (printf (lit "Generated API Key: " ++ T ++ [LF]) w) =
    (1, perror (lit "Error opening application.properties for reading")
          (printf (lit "Generated API Key: " ++ T ++ [LF]) w))) as ->.
  { unfold add_key_to_properties.
    change (fopen_r e (printf _ w)) with (fopen_r e w). by rewrite Hr. }
  done.
Qed.

Lemma read_open_failure_example :
  fst (main os_unreadable (on_disk file_sample)) = 1 /\
  disk (snd (main os_unreadable (on_disk file_sample))) = Some file_sample.
Proof.
  apply (read_open_failure os_unreadable (on_disk file_sample)); [simpl; lia|reflexivity].
Qed.

(** When the file cannot be opened for writing the exit status is 1 and
    the file on disk is unchanged. *)
Lemma write_open_failure (e : os) (w : world) :
  0 <= urandom_fd e ->
  fs_writable e = false ->
  fst (main e w) = 1 /\ disk (snd (main e w)) = disk w.
Proof.
  intros Hfd Hw. destruct (main_entropy_ok e w Hfd) as (T & _ & _ & ->). cbv zeta.
  set (w1 := printf _ w). unfold add_key_to_properties.
  change (fopen_r e w1) with (fopen_r e w). destruct (fopen_r e w) as [f|]; [|done].
  destruct (read_file f) as [ls k]. destruct (update_lines ls k T) as [ls' warn].
  rewrite Hw. simpl. by destruct warn.
Qed.

(** When all three opens succeed and the writes reach the device, the
    exit status is 0 and the file holds the edited lines. *)
Lemma main_rewrites (e : os) (w : world) (f : list ascii) :
  0 <= urandom_fd e ->
  file_io_ok e w f ->
  exists T, generate_api_key e KEY_LENGTH w = Ret T w /\
    fst (main e w) = 0 /\
    disk (snd (main e w)) =
      Some (write_lines (fst (update_lines (fst (read_file f)) (snd (read_file f)) T))).
Proof.
  intros Hfd Hio. destruct (main_entropy_ok e w Hfd) as (T & _ & Hgen & ->).
  exists T. split; [done|]. cbv zeta.
  rewrite (add_key_to_properties_ok e T _ f) by by apply file_io_ok_printf. done.
Qed.

(** C9 fails on the code. With [os_disk_full] every open succeeds and the
    device takes only the first 20 bytes written. Neither [fprintf] nor
    [fclose] is checked: the exit status is 0 although the file was not
    rewritten; it is left cut after 20 bytes, the keys line lost. *)
Theorem exit_status_0_write_lost :
  fs_room os_disk_full = Some 20%nat /\
  exists w' T,
    main os_disk_full (on_disk file_sample) = (0, w') /\
    generate_api_key os_disk_full KEY_LENGTH (on_disk file_sample) =
      Ret T (on_disk file_sample) /\
    disk w' = Some (lit "server.port=8080" ++ [LF] ++ lit "api") /\
    disk w' <>
      Some (write_lines
              (fst (update_lines (fst (read_file file_sample))
                      (snd (read_file file_sample)) T))) /\
    err w' = [].
Proof.
  split; [reflexivity|].
  eexists _, _. split; [vm_compute; reflexivity|]. split; [reflexivity|].
  split; [reflexivity|]. split; [|reflexivity].
  by_computation.
Qed.

(** * Further properties of the code *)

(** ** generate_api_key on every outcome of the read *)

(** X1. Whenever the entropy device opens, and whatever [read] does
    (fails, delivers fewer bytes than asked, or all of them), the generator
    returns normally, prints nothing, and the key has exactly the requested
    length with every character taken from the character set. *)
Theorem generate_api_key_always_well_formed (e : os) (len : nat) (w : world) :
  0 <= urandom_fd e ->
  exists key,
    generate_api_key e len w = Ret key w /\
    length key = len /\
    Forall (fun c => in_alphabet c = true) key /\
    (NUL ∉ key) /\ (LF ∉ key) /\ (COMMA ∉ key).
Proof.
  intros Hfd. unfold generate_api_key.
  destruct (urandom_fd e <? 0) eqn:E; [apply Z.ltb_lt in E; lia|].
  eexists. split; [reflexivity|].
  assert (Forall (fun c => c ∈ charset) (map key_char
    (read_into (urandom_data e) (map (stack_junk e) (seq 0 len))))) as Hall.
  { apply Forall_map, Forall_forall. intros b _. apply key_char_in_charset. }
  split; [by rewrite length_map, read_into_length, length_map, length_seq|].
  split; [eapply Forall_impl; [exact Hall|]; intros c Hc; by apply charset_alphabet|].
  repeat split; intros Hin; apply (proj1 (Forall_forall _ _) Hall) in Hin;
    apply charset_alphabet in Hin; discriminate Hin.
Qed.

Lemma generate_api_key_always_well_formed_witness :
  exists key,
    generate_api_key os_read_fails 16 (on_disk file_sample) = Ret key (on_disk file_sample) /\
    length key = 16%nat /\
    Forall (fun c => in_alphabet c = true) key /\
    (NUL ∉ key) /\ (LF ∉ key) /\ (COMMA ∉ key).
Proof.
  apply (generate_api_key_always_well_formed os_read_fails 16 (on_disk file_sample)).
  simpl. lia.
Defined.

(** X2. A short read is not noticed: when [read] delivers only the bytes
    [bs], fewer than asked, the first characters of the key come from [bs]
    and the remaining ones from what the buffer held before the call. *)
Theorem generate_api_key_short_read (e : os) (len : nat) (w : world) (bs : list ascii) :
  0 <= urandom_fd e ->
  urandom_data e = Some bs ->
  (length bs <= len)%nat ->
  generate_api_key e len w =
    Ret (map key_char bs ++
         map (fun i => key_char (stack_junk e i)) (seq (length bs) (len - length bs))) w.
Proof.
  intros Hfd Hdata Hlen. unfold generate_api_key. rewrite Hdata.
  destruct (urandom_fd e <? 0) eqn:E; [apply Z.ltb_lt in E; lia|].
  f_equal. unfold read_into. rewrite length_map, length_seq.
  rewrite take_ge by lia. rewrite map_app. f_equal.
  rewrite <- (fmap_drop (stack_junk e)), drop_seq. simpl.
  by rewrite map_map.
Qed.

Lemma generate_api_key_short_read_witness :
  generate_api_key os_short_read KEY_LENGTH (on_disk file_sample) =
    Ret (map key_char [Ascii.ascii_of_nat 1; Ascii.ascii_of_nat 2] ++
         map (fun i => key_char (stack_junk os_short_read i)) (seq 2 (KEY_LENGTH - 2)))
        (on_disk file_sample).
Proof.
  apply (generate_api_key_short_read os_short_read KEY_LENGTH (on_disk file_sample)
           [Ascii.ascii_of_nat 1; Ascii.ascii_of_nat 2]).
  - simpl. lia.
  - reflexivity.
  - simpl. unfold KEY_LENGTH. lia.
Defined.

(** X3. The 62 characters of the character set are distinct, and the
    reduction of a byte modulo 62 is biased: each of the first 8
    characters (A to H) is produced by 5 of the 256 byte values and each
    of the other 54 characters by 4. *)
Theorem key_char_modulo_bias :
  NoDup charset /\
  length all_bytes = 256%nat /\
  forall i c, charset !! i = Some c ->
    length (filter (fun b => key_char b = c) all_bytes) = if (i <? 8)%nat then 5%nat else 4%nat.
Proof.
  split; [by_computation|]. split; [reflexivity|].
  assert (forallb (fun i =>
            match charset !! i with
            | Some c => Nat.eqb (length (filter (fun b => key_char b = c) all_bytes))
                          (if (i <? 8)%nat then 5%nat else 4%nat)
            | None => true
            end) (seq 0 62) = true) as Hall by (vm_compute; reflexivity).
  intros i c Hi. rewrite forallb_forall in Hall.
  assert (i < 62)%nat as Hlt by (apply lookup_lt_Some in Hi; by rewrite charset_length in Hi).
  specialize (Hall i). rewrite Hi in Hall. apply Nat.eqb_eq, Hall.
  apply in_seq. lia.
Qed.

(** ** The read phase on every file *)

(** X4. A line is taken for the keys line exactly when its first 18
    characters are [api.security.keys=], byte for byte: a shorter line is
    not, and a line that starts with any other character, such as the [#]
    of a commented-out keys line or a blank, is not. *)
Theorem keys_line_match_exact (line : list ascii) :
  (is_keys_line line = true <-> take 18 line = lit "api.security.keys=") /\
  (is_keys_line line = true -> (18 <= length line)%nat) /\
  (forall c, c <> Ascii.ascii_of_nat 97 -> is_keys_line (c :: line) = false).
Proof.
  assert (is_keys_line line = true <-> take 18 line = KEYS_PREFIX) as Hiff.
  { rewrite is_keys_line_spec. unfold has_keys_prefix. split.
    - intros [r ->]. by rewrite <- KEYS_PREFIX_length, take_app_length.
    - intros H. rewrite <- H. apply prefix_take. }
  split; [exact Hiff|]. split.
  - intros H. apply Hiff in H. apply (f_equal length) in H.
    rewrite length_take, KEYS_PREFIX_length in H. lia.
  - intros c Hc. apply is_keys_line_false. unfold has_keys_prefix.
    change KEYS_PREFIX with (Ascii.ascii_of_nat 97 :: lit "pi.security.keys=").
    intros Hp. apply prefix_cons_inv_1 in Hp. congruence.
Qed.

Lemma int_of_size_t_small (n : nat) :
  Z.of_nat n < 2147483648 -> int_of_size_t (size_t_of_nat n) = Z.of_nat n.
Proof.
  intros Hn. unfold int_of_size_t, size_t_of_nat.
  rewrite (Z.mod_small (Z.of_nat n)) by lia. rewrite Z.mod_small by lia. lia.
Qed.

(** At 2^31 lines the conversion leaves the range of the array. *)
Lemma int_of_size_t_wraps : int_of_size_t 2147483648 = -2147483648.
Proof. reflexivity. Qed.

(** While the stored lines and the characters still to read stay below
    2^31 together, the [int] holds the index unchanged. *)
Lemma read_loop_int_agrees (fuel : nat) (stream : list ascii)
    (lines : list (list ascii)) (k : Z) :
  Z.of_nat (length lines + length stream) < 2147483648 ->
  read_loop_int fuel stream lines k = read_loop fuel stream lines k.
Proof.
  revert stream lines k. induction fuel as [|fuel IH]; intros stream lines k Hlen; [done|].
  destruct stream as [|c s]; [done|]. cbn [read_loop_int read_loop fgets].
  pose proof (fgets_chars_progress (MAX_LINE_LENGTH - 2) c s) as Hprog.
  change (S (MAX_LINE_LENGTH - 2)) with (MAX_LINE_LENGTH - 1)%nat in Hprog.
  destruct (fgets_chars (MAX_LINE_LENGTH - 1) (c :: s)) as [buf rest].
  cbn [snd] in Hprog. simpl length in Hlen.
  rewrite int_of_size_t_small by lia. apply IH. rewrite length_app. simpl. lia.
Qed.

Lemma read_file_int_agrees (f : list ascii) :
  Z.of_nat (length f) < 2147483648 -> read_file_int f = read_file f.
Proof. intros Hlen. apply read_loop_int_agrees. simpl. lia. Qed.

(** X5. For every file of fewer than 2^31 characters, with the index
    kept in an [int] as the source declares it, after the read phase
    [key_line_index] is either -1, and then no stored line has the prefix,
    or the index of a stored line that has the prefix, the last such line:
    the access [lines[key_line_index]] is inside the array. On such files
    the [int] never wraps, so the loop stores the same lines and the same
    index as with an unbounded index. *)
Theorem key_line_index_in_bounds (f : list ascii) :
  Z.of_nat (length f) < 2147483648 ->
  read_file_int f = read_file f /\
  ((snd (read_file_int f) = -1 /\ no_keys_line (fst (read_file_int f))) \/
   (exists i l,
      snd (read_file_int f) = Z.of_nat i /\
      0 <= snd (read_file_int f) < Z.of_nat (length (fst (read_file_int f))) /\
      last_keys_line (fst (read_file_int f)) i l)).
Proof.
  intros Hlen. rewrite (read_file_int_agrees f Hlen). split; [done|].
  rewrite read_file_spec. cbn [fst snd].
  destruct (keys_line_cases (read_lines (length f) f)) as [Hno|(i & l & Hlast)].
  - left. split; [by apply scan_keys_absent|done].
  - right. exists i, l. rewrite (scan_keys_found _ i l) by done.
    split; [done|]. split; [|done].
    destruct Hlast as (Hi & _). apply lookup_lt_Some in Hi. lia.
Qed.

Lemma key_line_index_in_bounds_witness :
  read_file_int file_sample = read_file file_sample /\
  ((snd (read_file_int file_sample) = -1 /\ no_keys_line (fst (read_file_int file_sample))) \/
   (exists i l,
      snd (read_file_int file_sample) = Z.of_nat i /\
      0 <= snd (read_file_int file_sample) <
        Z.of_nat (length (fst (read_file_int file_sample))) /\
      last_keys_line (fst (read_file_int file_sample)) i l)).
Proof.
  apply (key_line_index_in_bounds file_sample). vm_compute. reflexivity.
Defined.

(** X6. Whatever the file holds, every line stored by the read phase is
    free of NUL and line feed characters and shorter than the line
    buffer, so that copying it into a buffer of [MAX_LINE_LENGTH]
    characters never overflows. *)
Theorem stored_lines_well_formed (f : list ascii) :
  Forall (fun l => (NUL ∉ l) /\ (LF ∉ l) /\ (length l < MAX_LINE_LENGTH)%nat)
    (fst (read_file f)).
Proof.
  rewrite read_file_spec. simpl.
  pose proof (read_lines_clean (length f) f) as Hclean.
  pose proof (read_lines_bounded (length f) f) as Hbound.
  apply Forall_lookup_2. intros i l Hi.
  destruct (proj1 (Forall_lookup _ _) Hclean i l Hi) as [Hn Hl].
  pose proof (proj1 (Forall_lookup _ _) Hbound i l Hi) as Hb. done.
Qed.

(** ** The rewritten file on every input *)






(** ** Bytes of the rewritten file *)

Lemma normalize_cons (c d : ascii) (s : list ascii) :
  normalize (c :: d :: s) = c :: normalize (d :: s).
Proof.
  unfold normalize. rewrite last_cons_cons.
  destruct (last (d :: s)) as [x|]; [|done]. by destruct (decide (x = LF)).
Qed.

(** Splitting a text into lines and writing the lines closes the last
    line when it was open and changes nothing else. *)
Lemma write_lines_split_lines (s : list ascii) :
  write_lines (split_lines s) = normalize s.
Proof.
  induction s as [|c s IH]; [done|]. simpl.
  destruct (decide (c = LF)) as [->|Hc].
  - rewrite write_lines_cons, IH. simpl. destruct s as [|d s]; [done|].
    by rewrite normalize_cons.
  - destruct s as [|d s].
    + simpl. unfold normalize. simpl. by destruct (decide (c = LF)).
    + rewrite normalize_cons, <- IH.
      destruct (split_lines (d :: s)) as [|l ls] eqn:E.
      * exfalso. simpl in E. destruct (decide (d = LF)); [done|].
        by destruct (split_lines s).
      * by rewrite !write_lines_cons.
Qed.

(** X9. Reading and writing are inverse on text files within the
    editor's limits: the stored lines written back give the file byte for
    byte, except that a last line without line feed gains one. *)
Theorem read_write_round_trip (f : list ascii) :
  text_file f ->
  write_lines (fst (read_file f)) = normalize f /\
  (forall g, f = g ++ [LF] -> write_lines (fst (read_file f)) = f).
Proof.
  intros Htext. rewrite read_file_text_file by done. simpl.
  rewrite write_lines_split_lines. split; [done|].
  intros g ->. unfold normalize. rewrite last_snoc. by destruct (decide (LF = LF)).
Qed.

Lemma read_write_round_trip_witness :
  write_lines (fst (read_file file_sample)) = normalize file_sample /\
  (forall g, file_sample = g ++ [LF] -> write_lines (fst (read_file file_sample)) = file_sample).
Proof.
  apply (read_write_round_trip file_sample). by_computation.
Defined.

(** X10. Creation, byte for byte: on a text file within the limits that
    has no line with the prefix, the output is the input, closed by a line
    feed when its last line was open, followed by the one line
    [api.security.keys=T]; on the empty file it is that line alone. *)
Theorem creation_appends_bytes (e : os) (w : world) (f T : list ascii) :
  file_io_ok e w f ->
  text_file f ->
  is_token T ->
  no_keys_line (split_lines f) ->
  exists w',
    add_key_to_properties e T w = (0, w') /\
    disk w' = Some (normalize f ++ KEYS_PREFIX ++ T ++ [LF]).
Proof.
  intros Hio Htext HT Hno.
  destruct (edit_absent e w f T Hio (token_lf_free T HT) (text_file_lines_fit f Htext) Hno)
    as [Hrun _].
  rewrite text_file_c_str in Hrun by done. rewrite snprintf_fits in Hrun.
  - eexists. split; [exact Hrun|]. cbn [disk set_disk]. f_equal.
    rewrite write_lines_app, write_lines_split_lines, write_lines_cons.
    change (write_lines []) with (@nil ascii). by rewrite <- app_assoc.
  - destruct HT as [HT _]. rewrite length_app, KEYS_PREFIX_length, HT.
    unfold KEY_LENGTH, MAX_LINE_LENGTH. lia.
Qed.

Lemma creation_appends_bytes_witness :
  exists w',
    add_key_to_properties os_ok token_A (on_disk file_no_keys) = (0, w') /\
    disk w' = Some (normalize file_no_keys ++ KEYS_PREFIX ++ token_A ++ [LF]).
Proof.
  apply (creation_appends_bytes os_ok (on_disk file_no_keys) file_no_keys token_A).
  - repeat split.
  - by_computation.
  - exact token_A_is_token.
  - by_computation.
Defined.

(** X11. Appending, byte for byte: on a text file within the limits
    whose last keys line [l] can take the token within the buffer, the
    output is the input (closed by a line feed when its last line was
    open) with a comma and the token inserted just before the line feed
    that ends [l]; no other byte changes. *)
Theorem append_inserts_bytes (e : os) (w : world) (f T : list ascii) (i : nat) (l : list ascii) :
  file_io_ok e w f ->
  text_file f ->
  is_token T ->
  last_keys_line (split_lines f) i l ->
  (length (l ++ lit "," ++ T) < MAX_LINE_LENGTH)%nat ->
  exists w' before after,
    add_key_to_properties e T w = (0, w') /\
    normalize f = before ++ l ++ [LF] ++ after /\
    disk w' = Some (before ++ l ++ lit "," ++ T ++ [LF] ++ after) /\
    before = write_lines (take i (split_lines f)) /\
    after = write_lines (drop (S i) (split_lines f)).
Proof.
  intros Hio Htext HT Hlast Hfit.
  destruct (edit_found e w f T Hio (token_lf_free T HT) i l Htext Hlast) as [Hrun _].
  rewrite snprintf_fits in Hrun by lia. destruct Hlast as (Hi & _).
  eexists _, _, _. split; [exact Hrun|]. split; [|split; [|split; reflexivity]].
  - rewrite <- write_lines_split_lines.
    rewrite <- (take_drop_middle (split_lines f) i l Hi) at 1.
    by rewrite write_lines_app, write_lines_cons.
  - cbn [disk set_disk]. f_equal.
    rewrite insert_take_drop by by apply lookup_lt_Some in Hi.
    rewrite write_lines_app, write_lines_cons. by rewrite <- !app_assoc.
Qed.

Lemma append_inserts_bytes_witness :
  exists w' before after,
    add_key_to_properties os_ok token_A (on_disk file_sample) = (0, w') /\
    normalize file_sample = before ++ lit "api.security.keys=abc" ++ [LF] ++ after /\
    disk w' =
      Some (before ++ lit "api.security.keys=abc" ++ lit "," ++ token_A ++ [LF] ++ after) /\
    before = write_lines (take 1 (split_lines file_sample)) /\
    after = write_lines (drop 2 (split_lines file_sample)).
Proof.
  apply (append_inserts_bytes os_ok (on_disk file_sample) file_sample token_A 1
           (lit "api.security.keys=abc")).
  - repeat split.
  - by_computation.
  - exact token_A_is_token.
  - split; [reflexivity|]. split; [by_computation|].
    intros [|[|[|j]]] l' Hj Hp; [lia|lia| |by destruct j].
    simpl in Hj. injection Hj as <-. exfalso. revert Hp. by_computation.
  - vm_compute. lia.
Defined.

(** X12. The extended keys line is cut to the buffer: on a text file
    within the limits the last keys line [l] becomes [l], a comma and as
    many leading characters of the token as fit in 1023 characters, that
    is the first [1022 - length l] of them, so a token is written whole
    only when [l] has at most 990 characters. *)
Theorem extended_line_cut (e : os) (w : world) (f T : list ascii) (i : nat) (l : list ascii) :
  file_io_ok e w f ->
  text_file f ->
  is_token T ->
  last_keys_line (split_lines f) i l ->
  exists w' text,
    add_key_to_properties e T w = (0, w') /\
    disk w' = Some text /\
    split_lines text !! i =
      Some (l ++ lit "," ++ take (MAX_LINE_LENGTH - 2 - length l) T) /\
    ((length l <= 990)%nat <-> take (MAX_LINE_LENGTH - 2 - length l) T = T).
Proof.
  intros Hio Htext HT Hlast.
  destruct (edit_found e w f T Hio (token_lf_free T HT) i l Htext Hlast) as [Hrun Hsplit].
  pose proof Hlast as (Hi & _).
  destruct (text_file_lookup f i l Htext Hi) as (Hfit & _ & _).
  unfold fits_buffer, MAX_LINE_LENGTH in Hfit.
  eexists _, _. split; [exact Hrun|]. split; [reflexivity|]. split.
  - rewrite Hsplit, list_lookup_insert_eq by by apply lookup_lt_Some in Hi.
    f_equal. unfold snprintf, MAX_LINE_LENGTH.
    rewrite take_app_ge by lia. f_equal. rewrite lit_comma.
    replace (1024 - 1 - length l)%nat with (S (1024 - 2 - length l)) by lia. done.
  - destruct HT as [HT _]. unfold KEY_LENGTH, MAX_LINE_LENGTH in *. split.
    + intros Hle. apply take_ge. lia.
    + intros Heq. apply (f_equal length) in Heq. rewrite length_take in Heq. lia.
Qed.

Lemma extended_line_cut_witness :
  exists w' text,
    add_key_to_properties os_ok token_A (on_disk file_thirty_keys) = (0, w') /\
    disk w' = Some text /\
    split_lines text !! 1%nat =
      Some ((KEYS_PREFIX ++ thirty_keys) ++ lit "," ++
            take (MAX_LINE_LENGTH - 2 - length (KEYS_PREFIX ++ thirty_keys)) token_A) /\
    ((length (KEYS_PREFIX ++ thirty_keys) <= 990)%nat <->
     take (MAX_LINE_LENGTH - 2 - length (KEYS_PREFIX ++ thirty_keys)) token_A = token_A).
Proof.
  apply (extended_line_cut os_ok (on_disk file_thirty_keys) file_thirty_keys token_A 1
           (KEYS_PREFIX ++ thirty_keys)).
  - repeat split.
  - by_computation.
  - exact token_A_is_token.
  - split; [vm_compute; reflexivity|]. split; [by apply prefix_app_r|].
    intros [|[|j]] l' Hj _; [lia|lia|]. vm_compute in Hj. by destruct j.
Defined.

(** X13. A NUL character in a line cuts it: on a file whose lines fit
    the buffer and none of which has the prefix, every line is written
    back only up to its first NUL character, the rest of the line is
    lost, and the new keys line follows. *)
Theorem nul_cuts_line (e : os) (w : world) (f T : list ascii) :
  file_io_ok e w f ->
  lines_fit f ->
  is_token T ->
  no_keys_line (split_lines f) ->
  exists w' text,
    add_key_to_properties e T w = (0, w') /\
    disk w' = Some text /\
    split_lines text = map c_str (split_lines f) ++ [KEYS_PREFIX ++ T].
Proof.
  intros Hio Hfit HT Hno.
  destruct (edit_absent e w f T Hio (token_lf_free T HT) Hfit Hno) as [Hrun Hsplit].
  assert (snprintf MAX_LINE_LENGTH (KEYS_PREFIX ++ T) = KEYS_PREFIX ++ T) as Hnew.
  { apply snprintf_fits. destruct HT as [HT _]. rewrite length_app, KEYS_PREFIX_length, HT.
    unfold KEY_LENGTH, MAX_LINE_LENGTH. lia. }
  rewrite Hnew in Hrun, Hsplit.
  eexists _, _. split; [exact Hrun|]. split; [reflexivity|]. exact Hsplit.
Qed.

Lemma nul_cuts_line_witness :
  exists w' text,
    add_key_to_properties os_ok token_A (on_disk file_nul) = (0, w') /\
    disk w' = Some text /\
    split_lines text = map c_str (split_lines file_nul) ++ [KEYS_PREFIX ++ token_A].
Proof.
  apply (nul_cuts_line os_ok (on_disk file_nul) file_nul token_A).
  - repeat split.
  - by_computation.
  - exact token_A_is_token.
  - by_computation.
Defined.

(** ** Successive invocations *)

Lemma file_io_ok_next (e : os) (w : world) (f g : list ascii) (w' : world) :
  file_io_ok e w f -> disk w' = Some g -> file_io_ok e w' g.
Proof.
  intros (Hr & Hw & Hroom) Hg. split; [|done]. unfold fopen_r in *.
  destruct (fs_readable e); [done|discriminate].
Qed.

Lemma last_keys_line_insert (ls : list (list ascii)) (i : nat) (l l' : list ascii) :
  last_keys_line ls i l -> has_keys_prefix l' -> last_keys_line (<[i := l']> ls) i l'.
Proof.
  intros (Hi & Hp & Hmax) Hp'. split; [|split; [done|]].
  - apply list_lookup_insert_eq. by apply lookup_lt_Some in Hi.
  - intros j x Hj Hx. destruct (decide (j = i)) as [->|Hne]; [lia|].
    rewrite list_lookup_insert_ne in Hj by done. by apply (Hmax j x).
Qed.

Lemma text_file_of_lines (ls : list (list ascii)) :
  Forall (fun l => fits_buffer l /\ (NUL ∉ l)) ls ->
  Forall (fun l => LF ∉ l) ls ->
  text_file (write_lines ls).
Proof. intros Hok Hfree. unfold text_file. by rewrite split_lines_write_lines. Qed.

Lemma segments_cons (T : list ascii) (keys : list (list ascii)) :
  segments (T :: keys) = lit "," ++ T ++ segments keys.
Proof. unfold segments. cbn [map concat]. by rewrite <- app_assoc. Qed.

(** X14. Runs compose: on a text file within the limits whose last keys
    line is [l], invoking the editor once for each of the tokens
    [T1 ... Tk] in turn succeeds every time and leaves the line reading
    [l,T1,...,Tk], every other line unchanged, as long as that final line
    has at most 1022 characters. *)
Theorem repeated_runs_append (e : os) (keys : list (list ascii)) (w : world)
    (f : list ascii) (i : nat) (l : list ascii) :
  file_io_ok e w f ->
  text_file f ->
  Forall is_token keys ->
  last_keys_line (split_lines f) i l ->
  fits_buffer (l ++ segments keys) ->
  exists w' text,
    add_keys e keys w = (0, w') /\
    disk w' = Some text /\
    split_lines text = <[i := l ++ segments keys]> (split_lines f).
Proof.
  intros Hio Htext Hkeys. revert w f l Hio Htext.
  induction Hkeys as [|T keys HT _ IH]; intros w f l Hio Htext Hlast Hfit.
  - exists w, f. split; [done|]. destruct Hio as (Hr & _). unfold fopen_r in Hr.
    destruct (fs_readable e); [|done]. split; [done|].
    unfold segments. simpl. rewrite app_nil_r. symmetry. apply list_insert_id.
    by destruct Hlast.
  - rewrite segments_cons in Hfit. unfold fits_buffer in Hfit.
    rewrite !length_app in Hfit.
    destruct (edit_found_fits e w f T i l Hio Htext HT Hlast)
      as (w1 & text1 & Hrun & Hdisk & _ & Htext1 & Hsplit1).
    { rewrite !length_app. lia. }
    pose proof Hlast as (Hi & Hp & _).
    destruct (text_file_lookup f i l Htext Hi) as (_ & Hnul & _).
    assert (text_file text1) as Htf.
    { unfold text_file. rewrite Hsplit1. apply Forall_insert; [done|]. split.
      - unfold fits_buffer. rewrite !length_app. lia.
      - intros Hin. apply elem_of_app in Hin as [Hin|Hin]; [done|].
        apply elem_of_app in Hin as [Hin|Hin].
        + rewrite lit_comma in Hin. by apply list_elem_of_singleton in Hin.
        + by apply (token_nul_free T HT). }
    destruct (IH w1 text1 (l ++ lit "," ++ T)) as (w' & text & Hruns & Hd & Hs).
    + by apply (file_io_ok_next e w f).
    + done.
    + rewrite Hsplit1. apply (last_keys_line_insert _ i l); [done|].
      unfold has_keys_prefix. by apply prefix_app_r.
    + unfold fits_buffer. rewrite !length_app. lia.
    + exists w', text. split; [|split; [done|]].
      * simpl. by rewrite Hrun.
      * rewrite Hs, Hsplit1, list_insert_insert_eq, segments_cons.
        by rewrite <- !app_assoc.
Qed.

Lemma repeated_runs_append_witness :
  exists w' text,
    add_keys os_ok [token_A; token_B] (on_disk file_sample) = (0, w') /\
    disk w' = Some text /\
    split_lines text =
      <[1%nat := lit "api.security.keys=abc" ++ segments [token_A; token_B]]>
        (split_lines file_sample).
Proof.
  apply (repeated_runs_append os_ok [token_A; token_B] (on_disk file_sample) file_sample 1
           (lit "api.security.keys=abc")).
  - repeat split.
  - by_computation.
  - repeat constructor; try reflexivity; by_computation.
  - split; [reflexivity|]. split; [by_computation|].
    intros [|[|[|j]]] l' Hj Hp; [lia|lia| |by destruct j].
    simpl in Hj. injection Hj as <-. exfalso. revert Hp. by_computation.
  - unfold fits_buffer. vm_compute. lia.
Defined.

(** X15. Creation then appending: on a text file within the limits
    without keys line, two invocations in a row with tokens [T1] and [T2]
    print the warning once, not twice: the first creates the line, the
    second finds it, and the file ends with the one line
    [api.security.keys=T1,T2] after its former lines. *)
Theorem created_line_is_found_next (e : os) (w : world) (f T1 T2 : list ascii) :
  file_io_ok e w f ->
  text_file f ->
  is_token T1 ->
  is_token T2 ->
  no_keys_line (split_lines f) ->
  exists w' text,
    add_keys e [T1; T2] w = (0, w') /\
    disk w' = Some text /\
    err w' = err w ++ [WARNING] /\
    split_lines text = split_lines f ++ [KEYS_PREFIX ++ T1 ++ lit "," ++ T2].
Proof.
  intros Hio Htext HT1 HT2 Hno.
  destruct (edit_absent e w f T1 Hio (token_lf_free T1 HT1) (text_file_lines_fit f Htext) Hno)
    as [Hrun Hsplit].
  rewrite text_file_c_str in Hrun, Hsplit by done.
  assert (snprintf MAX_LINE_LENGTH (KEYS_PREFIX ++ T1) = KEYS_PREFIX ++ T1) as Hnew.
  { apply snprintf_fits. destruct HT1 as [H1 _]. rewrite length_app, KEYS_PREFIX_length, H1.
    unfold KEY_LENGTH, MAX_LINE_LENGTH. lia. }
  rewrite Hnew in Hrun, Hsplit.
  set (text1 := write_lines (split_lines f ++ [KEYS_PREFIX ++ T1])) in *.
  set (w1 := set_disk text1 (eprintf WARNING w)) in *.
  assert (length (KEYS_PREFIX ++ T1) = 50%nat) as Hlen.
  { destruct HT1 as [H1 _]. by rewrite length_app, KEYS_PREFIX_length, H1. }
  assert (text_file text1) as Htf.
  { unfold text_file. rewrite Hsplit. apply Forall_app. split; [done|].
    apply Forall_singleton. split.
    - unfold fits_buffer, MAX_LINE_LENGTH. lia.
    - intros Hin. apply elem_of_app in Hin as [Hin|Hin];
        [by apply KEYS_PREFIX_nul_free|by apply (token_nul_free T1 HT1)]. }
  destruct (edit_found_fits e w1 text1 T2 (length (split_lines f)) (KEYS_PREFIX ++ T1))
    as (w' & text & Hrun2 & Hdisk & Herr & _ & Hsplit2).
  - by apply (file_io_ok_next e w f).
  - done.
  - done.
  - rewrite Hsplit. split; [by rewrite list_lookup_middle|].
    split; [by apply prefix_app_r|].
    intros j x Hj _. apply lookup_lt_Some in Hj. rewrite length_app in Hj. simpl in Hj. lia.
  - destruct HT2 as [H2 _]. rewrite length_app, Hlen, length_app, H2.
    unfold KEY_LENGTH, MAX_LINE_LENGTH. simpl. lia.
  - exists w', text. split; [simpl; by rewrite Hrun, Hrun2|]. split; [done|].
    split; [by rewrite Herr|]. rewrite Hsplit2, Hsplit.
    rewrite insert_app_r_alt by lia. replace (_ - _)%nat with O by lia.
    change (<[O := (KEYS_PREFIX ++ T1) ++ lit "," ++ T2]> [KEYS_PREFIX ++ T1])
      with [(KEYS_PREFIX ++ T1) ++ lit "," ++ T2].
    by rewrite <- app_assoc.
Qed.

Lemma created_line_is_found_next_witness :
  exists w' text,
    add_keys os_ok [token_A; token_B] (on_disk file_no_keys) = (0, w') /\
    disk w' = Some text /\
    err w' = err (on_disk file_no_keys) ++ [WARNING] /\
    split_lines text =
      split_lines file_no_keys ++ [KEYS_PREFIX ++ token_A ++ lit "," ++ token_B].
Proof.
  apply (created_line_is_found_next os_ok (on_disk file_no_keys) file_no_keys token_A token_B).
  - repeat split.
  - by_computation.
  - exact token_A_is_token.
  - split; [reflexivity|]. by_computation.
  - by_computation.
Defined.

(** ** Runs of the whole program *)

(** X16. The exit status is 0 or 1, and it is 0 exactly when the entropy
    device opened and the properties file opened both for reading and for
    writing; neither the outcome of [read] nor that of the writes has any
    influence on it. *)
Theorem exit_status_decided_by_opens (e : os) (w : world) :
  (fst (main e w) = 0 \/ fst (main e w) = 1) /\
  (fst (main e w) = 0 <->
   0 <= urandom_fd e /\ is_Some (fopen_r e w) /\ fs_writable e = true).
Proof.
  split; [|apply main_status].
  destruct (Z.ltb_spec (urandom_fd e) 0) as [Hneg|Hfd].
  - right. destruct (entropy_open_failure e w Hneg) as [Hrun _]. by rewrite Hrun.
  - destruct (main_entropy_ok e w Hfd) as (T & _ & _ & ->). cbv zeta.
    destruct (fst (add_key_to_properties e T _) =? 0); [by left|by right].
Qed.

Lemma add_key_to_properties_failure (e : os) (T : list ascii) (w : world) :
  fst (add_key_to_properties e T w) <> 0 ->
  disk (snd (add_key_to_properties e T w)) = disk w /\
  out (snd (add_key_to_properties e T w)) = out w /\
  ((fopen_r e w = None /\
    err (snd (add_key_to_properties e T w)) = err w ++ [MSG_READING]) \/
   (exists f, fopen_r e w = Some f /\ fs_writable e = false /\
      err (snd (add_key_to_properties e T w)) =
        err w ++ (if snd (read_file f) =? -1 then [WARNING] else []) ++ [MSG_WRITING])).
Proof.
  unfold add_key_to_properties. destruct (fopen_r e w) as [f|] eqn:Hr.
  - destruct (read_file f) as [ls k] eqn:Hrf. unfold update_lines.
    destruct (k =? -1) eqn:Hk; destruct (fs_writable e) eqn:Hw;
      cbn [fst snd disk out err eprintf perror]; try done;
      intros _; (split; [done|]); (split; [done|]); right; exists f;
      (split; [done|]); (split; [done|]); rewrite Hrf; cbn [snd]; rewrite Hk;
      [by rewrite <- app_assoc|done].
  - intros _. split; [done|]. split; [done|]. by left.
Qed.

(** X17. A run that ends with a status other than 0 leaves the
    properties file exactly as it was, does not print the success
    message, and the last text on standard error is a diagnostic of the
    failure. *)
Theorem failed_run_leaves_file (e : os) (w : world) :
  fst (main e w) <> 0 ->
  disk (snd (main e w)) = disk w /\
  (MSG_ADDED ∉ out w -> MSG_ADDED ∉ out (snd (main e w))) /\
  (last (err (snd (main e w))) = Some MSG_URANDOM \/
   last (err (snd (main e w))) = Some MSG_FAILED).
Proof.
  intros Hfail. destruct (Z.ltb_spec (urandom_fd e) 0) as [Hneg|Hfd].
  - destruct (entropy_open_failure e w Hneg) as (Hrun & Hdisk & Hout).
    split; [done|]. split; [by rewrite Hout|]. left. rewrite Hrun. simpl. apply last_snoc.
  - destruct (main_entropy_ok e w Hfd) as (T & HT & _ & Hmain).
    rewrite Hmain in Hfail |- *. cbv zeta in Hfail |- *.
    set (w1 := printf _ w) in *.
    destruct (fst (add_key_to_properties e T w1) =? 0) eqn:E; [done|].
    apply Z.eqb_neq in E.
    destruct (add_key_to_properties_failure e T w1 E) as (Hdisk & Hout & _).
    cbn [fst snd]. split; [cbn [disk eprintf]; by rewrite Hdisk|].
    split; [|right; apply last_snoc].
    cbn [out eprintf]. rewrite Hout. cbn [out printf w1]. intros Hn Hin.
    apply elem_of_app in Hin as [Hin|Hin]; [done|].
    apply list_elem_of_singleton in Hin. apply (f_equal (take 1)) in Hin.
    discriminate Hin.
Qed.

Lemma failed_run_leaves_file_witness :
  disk (snd (main os_unwritable (on_disk file_sample))) = disk (on_disk file_sample) /\
  (MSG_ADDED ∉ out (on_disk file_sample) ->
   MSG_ADDED ∉ out (snd (main os_unwritable (on_disk file_sample)))) /\
  (last (err (snd (main os_unwritable (on_disk file_sample)))) = Some MSG_URANDOM \/
   last (err (snd (main os_unwritable (on_disk file_sample)))) = Some MSG_FAILED).
Proof.
  apply (failed_run_leaves_file os_unwritable (on_disk file_sample)).
  vm_compute. discriminate.
Defined.

(** X18. What a failing run prints. When the entropy device does not
    open, nothing goes to standard output and one diagnostic to standard
    error. Otherwise the generated key is printed on standard output even
    though it is not stored, and standard error receives the diagnostic
    of the failed [fopen] followed by the failure message; when it is the
    second [fopen] that fails, the warning about a missing keys line has
    already been printed if no stored line had the prefix. *)
Theorem failed_run_output (e : os) (w : world) :
  fst (main e w) <> 0 ->
  (urandom_fd e < 0 /\
   out (snd (main e w)) = out w /\
   err (snd (main e w)) = err w ++ [MSG_URANDOM]) \/
  (exists T, 0 <= urandom_fd e /\ is_token T /\
     generate_api_key e KEY_LENGTH w = Ret T w /\
     out (snd (main e w)) = out w ++ [MSG_KEY T] /\
     ((fopen_r e w = None /\
       err (snd (main e w)) = err w ++ [MSG_READING; MSG_FAILED]) \/
      (exists f, fopen_r e w = Some f /\ fs_writable e = false /\
         err (snd (main e w)) =
           err w ++ (if snd (read_file f) =? -1 then [WARNING] else []) ++
           [MSG_WRITING; MSG_FAILED]))).
Proof.
  intros Hfail. destruct (Z.ltb_spec (urandom_fd e) 0) as [Hneg|Hfd].
  - left. destruct (entropy_open_failure e w Hneg) as (Hrun & _ & Hout).
    split; [done|]. split; [done|]. by rewrite Hrun.
  - right. destruct (main_entropy_ok e w Hfd) as (T & HT & Hgen & Hmain).
    exists T. split; [done|]. split; [done|]. split; [done|].
    rewrite Hmain in Hfail |- *. cbv zeta in Hfail |- *.
    set (w1 := printf (lit "Generated API Key: " ++ T ++ [LF]) w) in *.
    destruct (fst (add_key_to_properties e T w1) =? 0) eqn:E; [done|].
    apply Z.eqb_neq in E.
    destruct (add_key_to_properties_failure e T w1 E) as (_ & Hout & Herr).
    cbn [fst snd out err eprintf]. rewrite Hout. split; [done|].
    change (fopen_r e w1) with (fopen_r e w) in Herr. change (err w1) with (err w) in Herr.
    destruct Herr as [[Hr ->]|(f & Hr & Hw & ->)].
    + left. split; [done|]. by rewrite <- app_assoc.
    + right. exists f. split; [done|]. split; [done|]. by rewrite <- !app_assoc.
Qed.

Lemma failed_run_output_witness :
  (urandom_fd os_unreadable < 0 /\
   out (snd (main os_unreadable (on_disk file_sample))) = out (on_disk file_sample) /\
   err (snd (main os_unreadable (on_disk file_sample))) =
     err (on_disk file_sample) ++ [MSG_URANDOM]) \/
  (exists T, 0 <= urandom_fd os_unreadable /\ is_token T /\
     generate_api_key os_unreadable KEY_LENGTH (on_disk file_sample) =
       Ret T (on_disk file_sample) /\
     out (snd (main os_unreadable (on_disk file_sample))) =
       out (on_disk file_sample) ++ [MSG_KEY T] /\
     ((fopen_r os_unreadable (on_disk file_sample) = None /\
       err (snd (main os_unreadable (on_disk file_sample))) =
         err (on_disk file_sample) ++ [MSG_READING; MSG_FAILED]) \/
      (exists f, fopen_r os_unreadable (on_disk file_sample) = Some f /\
         fs_writable os_unreadable = false /\
         err (snd (main os_unreadable (on_disk file_sample))) =
           err (on_disk file_sample) ++ (if snd (read_file f) =? -1 then [WARNING] else []) ++
           [MSG_WRITING; MSG_FAILED]))).
Proof.
  apply (failed_run_output os_unreadable (on_disk file_sample)).
  vm_compute. discriminate.
Defined.




(** ** A keys line that has filled the buffer *)

Lemma read_whole_line (l rest : list ascii) :
  LF ∉ l -> NUL ∉ l -> fits_buffer l ->
  read_lines (length (l ++ LF :: rest)) (l ++ LF :: rest) =
    l :: read_lines (length rest) rest.
Proof.
  intros Hlf Hnul Hfit. rewrite length_app. simpl.
  replace (length l + S (length rest))%nat with (S (length l + length rest)) by lia.
  rewrite read_lines_line, c_str_id by done. f_equal.
  apply read_lines_more_fuel; lia.
Qed.

Lemma read_full_line (l rest : list ascii) :
  LF ∉ l -> NUL ∉ l -> length l = (MAX_LINE_LENGTH - 1)%nat ->
  read_lines (length (l ++ LF :: rest)) (l ++ LF :: rest) =
    l :: [] :: read_lines (length rest) rest.
Proof.
  intros Hlf Hnul Hlen. rewrite length_app. simpl length.
  replace (length l + S (length rest))%nat with (S (S (length l - 1 + length rest)))
    by (rewrite Hlen; unfold MAX_LINE_LENGTH; lia).
  rewrite read_lines_cut by first [done | lia].
  rewrite <- Hlen, firstn_all, skipn_all, c_str_id by done. f_equal.
  change ([] ++ LF :: rest) with ([] ++ LF :: rest).
  rewrite (read_lines_line _ [] rest); [|apply not_elem_of_nil|unfold MAX_LINE_LENGTH; simpl; lia].
  f_equal. apply read_lines_more_fuel; lia.
Qed.

Lemma read_lines_write_lines (ls : list (list ascii)) (rest : list ascii) :
  Forall (fun l => fits_buffer l /\ (NUL ∉ l) /\ (LF ∉ l)) ls ->
  read_lines (length (write_lines ls ++ rest)) (write_lines ls ++ rest) =
    ls ++ read_lines (length rest) rest.
Proof.
  induction 1 as [|l ls (Hfit & Hnul & Hlf) _ IH]; [done|].
  rewrite write_lines_cons, <- app_assoc. simpl app at 2.
  rewrite read_whole_line by done. by rewrite IH.
Qed.

(** X20. Once the keys line has grown to 1023 characters, as the cut of
    an extended line leaves it, a further run silently does nothing for
    the token: the run succeeds, none of the token is written, and an
    empty line appears after the keys line because the line feed of the
    full line is read as a line of its own; the other lines stay. *)
Theorem full_keys_line_drops_token (e : os) (w : world) (T l : list ascii)
    (above below : list (list ascii)) :
  file_io_ok e w (write_lines above ++ l ++ [LF] ++ write_lines below) ->
  Forall (fun x => fits_buffer x /\ (NUL ∉ x) /\ (LF ∉ x)) above ->
  Forall (fun x => fits_buffer x /\ (NUL ∉ x) /\ (LF ∉ x)) below ->
  no_keys_line below ->
  has_keys_prefix l ->
  (LF ∉ l) -> (NUL ∉ l) ->
  length l = (MAX_LINE_LENGTH - 1)%nat ->
  exists w',
    add_key_to_properties e T w = (0, w') /\
    err w' = err w /\
    disk w' = Some (write_lines above ++ l ++ [LF] ++ [LF] ++ write_lines below).
Proof.
  intros Hio Habove Hbelow Hno Hp Hlf Hnul Hlen.
  set (f := write_lines above ++ l ++ [LF] ++ write_lines below) in *.
  assert (fst (read_file f) = above ++ l :: [] :: below) as Hread.
  { rewrite read_file_spec. cbn [fst]. unfold f.
    rewrite read_lines_write_lines by done. f_equal.
    change (l ++ [LF] ++ write_lines below) with (l ++ LF :: write_lines below).
    rewrite read_full_line by done. do 2 f_equal.
    rewrite <- (app_nil_r (write_lines below)), read_lines_write_lines by done.
    simpl. apply app_nil_r. }
  assert (last_keys_line (above ++ l :: [] :: below) (length above) l) as Hlast.
  { split; [by rewrite list_lookup_middle|]. split; [done|].
    intros j x Hj Hx. destruct (decide (j <= length above)%nat) as [|Hgt]; [done|].
    exfalso. rewrite lookup_app_r in Hj by lia.
    destruct (j - length above)%nat as [|[|k]] eqn:E; [lia| |].
    - simpl in Hj. injection Hj as <-. revert Hx. by_computation.
    - simpl in Hj. by destruct (proj1 (Forall_lookup _ _) Hno k x Hj). }
  rewrite (add_key_to_properties_ok e T w f Hio).
  assert (snd (read_file f) = scan_keys (fst (read_file f)) 0 (-1)) as ->
    by by rewrite read_file_spec.
  rewrite Hread, (update_lines_found _ (length above) l) by done. cbn [fst snd].
  eexists. split; [reflexivity|]. split; [reflexivity|]. cbn [disk set_disk]. f_equal.
  assert (snprintf MAX_LINE_LENGTH (l ++ lit "," ++ T) = l) as ->.
  { unfold snprintf. rewrite <- Hlen. apply take_app_length. }
  rewrite list_insert_id by by destruct Hlast.
  by rewrite write_lines_app, !write_lines_cons.
Qed.

Lemma full_keys_line_drops_token_witness :
  exists w',
    add_key_to_properties os_ok token_A
      (on_disk (write_lines [lit "server.port=8080"] ++ full_keys_line ++ [LF] ++
                write_lines [lit "logging.level=INFO"])) = (0, w') /\
    err w' = [] /\
    disk w' = Some (write_lines [lit "server.port=8080"] ++ full_keys_line ++ [LF] ++ [LF] ++
                    write_lines [lit "logging.level=INFO"]).
Proof.
  apply (full_keys_line_drops_token os_ok
           (on_disk (write_lines [lit "server.port=8080"] ++ full_keys_line ++ [LF] ++
                     write_lines [lit "logging.level=INFO"]))
           token_A full_keys_line [lit "server.port=8080"] [lit "logging.level=INFO"]).
  - repeat split.
  - unfold fits_buffer. by_computation.
  - unfold fits_buffer. by_computation.
  - by_computation.
  - by apply prefix_app_r.
  - by_computation.
  - by_computation.
  - reflexivity.
Defined.
